(** * WechatDaily: HTML extraction and HTML-to-PNG rendering pipeline

    A shallow embedding of the extraction and rendering core of the
    repository:

    - [Extractor]: [extract_html_from_response] of [app.py] and
      [app/utils/helpers.py] (the two copies are textually identical);
    - [Effects]: the operating-system and library calls the rendering code
      performs, as an oracle over an abstract world, with a log of what
      was called and observed;
    - [Renderer]: [find_browser_path], [html_to_png_with_playwright],
      [convert_html_to_png] and [html_to_png] of [app.py];
    - [Converter]: [HtmlToImageConverter] of [html_to_image.py];
    - [Helpers]: [convert_html_to_image] of [app/utils/helpers.py];
    - [Worlds]: concrete worlds to run the code in;
    - [Logs], [RendererFacts], [ConverterFacts]: what every run of the
      rendering code does, read off its log;
    - [ConverterFiles], [Convenience]: the constructor, the file methods,
      the module-level functions and [main] of [html_to_image.py];
    - [Services]: the endpoints of [html_to_image_service.py] and
      [html_to_image_service_fastapi.py] that convert HTML content or a
      file path;
    - [Application]: [TemplateService], [save_html_content], the
      daily-report route of [app/api/routes/html.py] and the end of
      [main] in [app.py];
    - [ExtractorShape], [RendererEdges], [ConverterFilesFacts],
      [FileConversionFacts], [Sessions], [ConvenienceFacts],
      [ServicesFacts], [ApplicationFacts]: further properties of that
      code. *)

From Stdlib Require Import String Ascii List Bool Arith Lia ZArith.
From Stdlib Require QArith.
Import ListNotations.

Set Implicit Arguments.

(* ================================================================= *)
(** * The HTML extractor *)

Module Extractor.

(** A Python [str] is modelled as the list of the bytes of its UTF-8
    encoding.  The three patterns are ASCII, [[\s\S]] accepts every
    character, and none of the letters of the patterns (b c d e h l m o p
    t y) has a non-ASCII case variant under [re.IGNORECASE], so searching
    the encoded text finds the same matches as searching code points. *)
Definition str := list ascii.

Definition lit (s : string) : str := list_ascii_of_string s.

(** ** Case folding of [re.IGNORECASE] *)

Definition is_upper (c : ascii) : bool :=
  let n := nat_of_ascii c in (65 <=? n) && (n <=? 90).

Definition lower (c : ascii) : ascii :=
  if is_upper c then ascii_of_nat (nat_of_ascii c + 32) else c.

Definition ci_eqb (a b : ascii) : bool := Ascii.eqb (lower a) (lower b).

(** ** The regular expressions of the source

    Every pattern of [extract_html_from_response] is a sequence of literal
    characters and of the lazy wildcard [[\s\S]*?]. *)

Inductive item : Type :=
| Chr (c : ascii)        (* a literal character, matched ignoring case *)
| AnyLazy.               (* [\s\S]*? *)

Definition regex := list item.

Definition chars (s : string) : regex := map Chr (lit s).

(** [match_here p s]: the text matched by [p] at the very start of [s], as
    a backtracking matcher finds it: a lazy wildcard first tries to match
    the rest of the pattern without consuming anything, and consumes one
    more character each time the rest fails. *)
Fixpoint match_here (p : regex) : str -> option str :=
  match p with
  | [] => fun _ => Some []
  | Chr c :: p' => fun s =>
      match s with
      | d :: s' => if ci_eqb c d then option_map (cons d) (match_here p' s')
                   else None
      | [] => None
      end
  | AnyLazy :: p' =>
      fix lazy (s : str) : option str :=
        match match_here p' s with
        | Some m => Some m
        | None => match s with
                  | [] => None
                  | d :: s' => option_map (cons d) (lazy s')
                  end
        end
  end.

(** [pattern.search(text)] followed by [match.group(0)]: the match at the
    leftmost position where the pattern matches. *)
Fixpoint search (p : regex) (s : str) : option str :=
  match match_here p s with
  | Some m => Some m
  | None => match s with
            | [] => None
            | _ :: s' => search p s'
            end
  end.

Definition DOCTYPE : string := "<!DOCTYPE html>".
Definition HTML_OPEN : string := "<html".
Definition HTML_CLOSE : string := "</html>".
Definition BODY_OPEN : string := "<body".
Definition BODY_CLOSE : string := "</body>".

(** [r'<!DOCTYPE html>[\s\S]*?<\/html>'] *)
Definition html_pattern_document : regex :=
  chars DOCTYPE ++ AnyLazy :: chars HTML_CLOSE.

(** [r'<html[\s\S]*?<\/html>'] *)
Definition html_pattern : regex :=
  chars HTML_OPEN ++ AnyLazy :: chars HTML_CLOSE.

(** [r'<body[\s\S]*?<\/body>'] *)
Definition body_pattern : regex :=
  chars BODY_OPEN ++ AnyLazy :: chars BODY_CLOSE.

Definition nl : string := String "010"%char EmptyString.
Definition dq : string := String "034"%char EmptyString.

(** ["<!DOCTYPE html>\n"] *)
Definition doctype_line : str := lit (DOCTYPE ++ nl).

(** The text of the f-string before and after [{match.group(0)}]. *)
Definition shell_head : str :=
  lit (DOCTYPE ++ nl ++
       "<html>" ++ nl ++
       "<head>" ++ nl ++
       "    <meta charset=" ++ dq ++ "UTF-8" ++ dq ++ ">" ++ nl ++
       "    <title>群聊日报</title>" ++ nl ++
       "</head>" ++ nl).

Definition shell_tail : str := lit (nl ++ "</html>").

Definition extract_html_from_response (response_text : str) : option str :=
  match search html_pattern_document response_text with
  | Some m => Some m
  | None =>
      match search html_pattern response_text with
      | Some m => Some (doctype_line ++ m)
      | None =>
          match search body_pattern response_text with
          | Some m => Some (shell_head ++ m ++ shell_tail)
          | None => None
          end
      end
  end.

(** ** Occurrences, stated without the matcher *)

(** [x] is the pattern text [a] up to the case of its letters. *)
Definition ci_eq (a x : str) : Prop :=
  Forall2 (fun c d => ci_eqb c d = true) a x.

(** [a] occurs in [s] at offset [k]. *)
Definition occurs_at (a : str) (k : nat) (s : str) : Prop :=
  exists pre x post, s = pre ++ x ++ post /\ length pre = k /\ ci_eq a x.

Definition occurs (a : str) (s : str) : Prop := exists k, occurs_at a k s.

(** [s] holds an opening [a] and, after it, a closing [b]. *)
Definition contains_block (a b : str) (s : str) : Prop :=
  exists pre x mid y post,
    s = pre ++ x ++ mid ++ y ++ post /\ ci_eq a x /\ ci_eq b y.

(** [s = pre ++ x ++ mid ++ y ++ post] where [x] is the first occurrence of
    [a] in [s] and [y] the first occurrence of [b] after [x]. *)
Definition first_block (a b : str) (s pre x mid y post : str) : Prop :=
  s = pre ++ x ++ mid ++ y ++ post /\ ci_eq a x /\ ci_eq b y /\
  (forall k, k < length pre -> ~ occurs_at a k s) /\
  (forall k, k < length mid -> ~ occurs_at b k (mid ++ y ++ post)).

(** Executable counterparts. *)
Fixpoint ci_prefixb (a s : str) : bool :=
  match a, s with
  | [], _ => true
  | _ :: _, [] => false
  | c :: a', d :: s' => ci_eqb c d && ci_prefixb a' s'
  end.

Fixpoint find_ci (a s : str) : option nat :=
  if ci_prefixb a s then Some 0
  else match s with
       | [] => None
       | _ :: s' => option_map S (find_ci a s')
       end.

(** ** Facts about occurrences *)

Lemma ci_eq_length (a x : str) : ci_eq a x -> length x = length a.
Proof. intros H. symmetry. exact (Forall2_length H). Qed.

Lemma ci_prefixb_app (a x post : str) :
  ci_eq a x -> ci_prefixb a (x ++ post) = true.
Proof.
  induction 1 as [|c d a x Hcd _ IH]; simpl; [reflexivity|].
  now rewrite Hcd, IH.
Qed.

Lemma ci_prefixb_split (a s : str) :
  ci_prefixb a s = true ->
  ci_eq a (firstn (length a) s) /\ s = firstn (length a) s ++ skipn (length a) s.
Proof.
  intros H. split; [|symmetry; apply firstn_skipn].
  revert s H. induction a as [|c a IH]; intros s H; simpl.
  - constructor.
  - destruct s as [|d s]; simpl in H; [discriminate|].
    apply andb_prop in H. destruct H as [Hcd H].
    constructor; [exact Hcd | now apply IH].
Qed.

Lemma occurs_at_skipn (a : str) (k : nat) (s : str) :
  occurs_at a k s <-> k <= length s /\ ci_prefixb a (skipn k s) = true.
Proof.
  split.
  - intros (pre & x & post & -> & <- & Hx). split.
    + rewrite length_app. lia.
    + rewrite skipn_app, Nat.sub_diag, skipn_all. simpl.
      now apply ci_prefixb_app.
  - intros [Hk H]. destruct (ci_prefixb_split _ _ H) as [H1 H2].
    exists (firstn k s), (firstn (length a) (skipn k s)),
      (skipn (length a) (skipn k s)).
    repeat split; trivial.
    + now rewrite <- H2, firstn_skipn.
    + rewrite length_firstn. lia.
Qed.

Lemma occurs_at_0 (a s : str) : occurs_at a 0 s <-> ci_prefixb a s = true.
Proof.
  rewrite occurs_at_skipn. simpl. split; [tauto | intros; split; [lia | trivial]].
Qed.

Lemma occurs_at_S (a : str) (k : nat) (d : ascii) (s : str) :
  occurs_at a (S k) (d :: s) <-> occurs_at a k s.
Proof. rewrite !occurs_at_skipn. simpl. split; intros []; split; trivial; lia. Qed.

(** [find_ci] returns the offset of the first occurrence. *)
Lemma find_ci_Some (a s : str) (i : nat) :
  find_ci a s = Some i <->
  occurs_at a i s /\ (forall k, k < i -> ~ occurs_at a k s).
Proof.
  revert i. induction s as [|d s IH]; intros i; simpl.
  - destruct (ci_prefixb a []) eqn:E.
    + split.
      * intros [= <-]. split; [now apply occurs_at_0 | intros; lia].
      * intros [H _]. apply occurs_at_skipn in H. simpl in H.
        f_equal. lia.
    + split; [discriminate|]. intros [H _]. apply occurs_at_skipn in H.
      destruct H as [Hi H]. simpl in Hi. replace i with 0 in H by lia.
      simpl in H. congruence.
  - destruct (ci_prefixb a (d :: s)) eqn:E.
    + split.
      * intros [= <-]. split; [now apply occurs_at_0 | intros; lia].
      * intros [_ H]. destruct i as [|i]; [reflexivity|].
        exfalso. apply (H 0); [lia | now apply occurs_at_0].
    + destruct (find_ci a s) as [j|] eqn:F; simpl.
      * destruct (proj1 (IH j) eq_refl) as [H1 H2]. split.
        -- intros [= <-]. split; [now apply occurs_at_S|].
           intros [|k] Hk; [rewrite occurs_at_0; congruence|].
           rewrite occurs_at_S. apply H2. lia.
        -- intros [H3 H4]. destruct i as [|i].
           ++ apply occurs_at_0 in H3. congruence.
           ++ f_equal. apply occurs_at_S in H3.
              assert (Some j = Some i) as Hi.
              { apply IH. split; trivial. intros k Hk Hocc.
                apply (H4 (S k)); [lia | now apply occurs_at_S]. }
              congruence.
      * split; [discriminate|]. intros [H3 H4]. destruct i as [|i].
        -- apply occurs_at_0 in H3. congruence.
        -- apply occurs_at_S in H3.
           assert (@None nat = Some i) as Hi.
           { apply IH. split; trivial. intros k Hk Hocc.
             apply (H4 (S k)); [lia | now apply occurs_at_S]. }
           congruence.
Qed.

Lemma find_ci_complete (a s : str) (k : nat) :
  occurs_at a k s -> exists i, find_ci a s = Some i /\ i <= k.
Proof.
  revert k. induction s as [|d s IH]; intros k H; simpl.
  - apply occurs_at_skipn in H. destruct H as [Hk H]. simpl in Hk.
    replace k with 0 in H by lia. simpl in H. rewrite H.
    exists 0. split; [reflexivity | lia].
  - destruct (ci_prefixb a (d :: s)) eqn:E.
    + exists 0. split; [reflexivity | lia].
    + destruct k as [|k]; [apply occurs_at_0 in H; congruence|].
      apply occurs_at_S in H. destruct (IH _ H) as (i & -> & Hi).
      exists (S i). split; [reflexivity | lia].
Qed.

Lemma find_ci_None (a s : str) :
  find_ci a s = None <-> ~ occurs a s.
Proof.
  split.
  - intros H [k Hk]. destruct (find_ci_complete Hk) as (i & Hi & _). congruence.
  - intros H. destruct (find_ci a s) as [i|] eqn:E; [|reflexivity].
    exfalso. apply H. exists i. now apply find_ci_Some in E.
Qed.

(** ** The matcher on [open [\s\S]*? close] patterns *)

Lemma firstn_plus (A : Type) (n m : nat) (l : list A) :
  firstn n l ++ firstn m (skipn n l) = firstn (n + m) l.
Proof.
  revert l. induction n as [|n IH]; intros [|x l]; simpl; trivial.
  - now rewrite firstn_nil.
  - now rewrite IH.
Qed.

Lemma firstn_exact (A : Type) (l r : list A) : firstn (length l) (l ++ r) = l.
Proof. induction l as [|x l IH]; simpl; [reflexivity | now rewrite IH]. Qed.

Lemma skipn_exact (A : Type) (l r : list A) : skipn (length l) (l ++ r) = r.
Proof. induction l as [|x l IH]; simpl; [reflexivity | exact IH]. Qed.

Lemma match_here_lazy_eq (p : regex) (s : str) :
  match_here (AnyLazy :: p) s =
  match match_here p s with
  | Some m => Some m
  | None => match s with
            | [] => None
            | d :: s' => option_map (cons d) (match_here (AnyLazy :: p) s')
            end
  end.
Proof. destruct s; reflexivity. Qed.

Lemma match_here_chars (a : str) (p : regex) (s : str) :
  match_here (map Chr a ++ p) s =
  if ci_prefixb a s
  then option_map (app (firstn (length a) s)) (match_here p (skipn (length a) s))
  else None.
Proof.
  revert s. induction a as [|c a IH]; intros s.
  - simpl. now destruct (match_here p s).
  - destruct s as [|d s]; simpl; [reflexivity|].
    destruct (ci_eqb c d); simpl; [|reflexivity].
    rewrite IH. destruct (ci_prefixb a s); [|reflexivity].
    now destruct (match_here p (skipn (length a) s)).
Qed.

Lemma match_here_chars_only (b s : str) :
  match_here (map Chr b) s =
  if ci_prefixb b s then Some (firstn (length b) s) else None.
Proof.
  rewrite <- (app_nil_r (map Chr b)), match_here_chars. simpl.
  now rewrite app_nil_r.
Qed.

Lemma match_here_lazy (b s : str) :
  match_here (AnyLazy :: map Chr b) s =
  option_map (fun j => firstn (j + length b) s) (find_ci b s).
Proof.
  induction s as [|d s IH]; rewrite match_here_lazy_eq, match_here_chars_only;
    simpl find_ci; destruct (ci_prefixb b _); trivial.
  rewrite IH. now destruct (find_ci b s).
Qed.

Lemma match_here_block (a b s : str) :
  match_here (map Chr a ++ AnyLazy :: map Chr b) s =
  if ci_prefixb a s
  then option_map (fun j => firstn (length a + j + length b) s)
                  (find_ci b (skipn (length a) s))
  else None.
Proof.
  rewrite match_here_chars, match_here_lazy.
  destruct (ci_prefixb a s); [|reflexivity].
  destruct (find_ci b _) as [j|]; simpl; [|reflexivity].
  now rewrite firstn_plus, Nat.add_assoc.
Qed.

(** A match of the pattern is a block of the text. *)
Lemma search_sound (a b s m : str) :
  search (map Chr a ++ AnyLazy :: map Chr b) s = Some m -> contains_block a b s.
Proof.
  induction s as [|d s IH]; simpl; rewrite match_here_block.
  - destruct (ci_prefixb a []) eqn:Ea; [|discriminate].
    destruct (find_ci b _) as [j|] eqn:Eb; [|discriminate]. intros _.
    apply ci_prefixb_split in Ea. destruct Ea as [Ha Hs].
    apply find_ci_Some in Eb. destruct Eb as [(mid & y & post & E & _ & Hy) _].
    exists [], (firstn (length a) []), mid, y, post.
    repeat split; trivial. simpl. now rewrite <- E.
  - destruct (ci_prefixb a (d :: s)) eqn:Ea.
    + destruct (find_ci b _) as [j|] eqn:Eb.
      * intros _. apply ci_prefixb_split in Ea. destruct Ea as [Ha Hs].
        apply find_ci_Some in Eb.
        destruct Eb as [(mid & y & post & E & _ & Hy) _].
        exists [], (firstn (length a) (d :: s)), mid, y, post.
        repeat split; trivial. simpl app at 1. now rewrite <- E.
      * simpl. intros H. destruct (IH H) as (pre & x & mid & y & post & -> & ?).
        now exists (d :: pre), x, mid, y, post.
    + intros H. destruct (IH H) as (pre & x & mid & y & post & -> & ?).
      now exists (d :: pre), x, mid, y, post.
Qed.

(** The match is the first block of the text. *)
Lemma search_first_block (a b s pre x mid y post : str) :
  first_block a b s pre x mid y post ->
  search (map Chr a ++ AnyLazy :: map Chr b) s = Some (x ++ mid ++ y).
Proof.
  intros (-> & Hx & Hy & Hpre & Hmid).
  induction pre as [|c pre IH].
  - simpl app at 1. destruct (x ++ mid ++ y ++ post) eqn:E; simpl search;
      rewrite match_here_block, <- E.
    all: rewrite (ci_prefixb_app _ Hx), <- (ci_eq_length Hx), skipn_exact.
    all: assert (find_ci b (mid ++ y ++ post) = Some (length mid)) as ->
        by (apply find_ci_Some; split; trivial; now exists mid, y, post).
    all: simpl option_map; rewrite <- (ci_eq_length Hy).
    all: replace (length x + length mid + length y)
          with (length (x ++ mid ++ y)) by (rewrite !length_app; lia).
    all: replace (x ++ mid ++ y ++ post) with ((x ++ mid ++ y) ++ post)
          by (now rewrite <- !app_assoc).
    all: now rewrite firstn_exact.
  - simpl app at 1. simpl search. rewrite match_here_block.
    destruct (ci_prefixb a _) eqn:Ea.
    + exfalso. apply (Hpre 0); [simpl; lia | now apply occurs_at_0].
    + apply IH. intros k Hk Hocc. apply (Hpre (S k)); [simpl; lia|].
      now apply occurs_at_S.
Qed.

(** Every text that holds a block holds a first one. *)
Lemma first_block_exists (a b s : str) :
  contains_block a b s ->
  exists pre x mid y post, first_block a b s pre x mid y post.
Proof.
  intros (pre0 & x0 & mid0 & y0 & post0 & E & Hx0 & Hy0).
  assert (occurs_at a (length pre0) s) as Ha
    by (now exists pre0, x0, (mid0 ++ y0 ++ post0)).
  destruct (find_ci_complete Ha) as (i & Hi & Hle).
  apply find_ci_Some in Hi. destruct Hi as [Hocc Hmin].
  apply occurs_at_skipn in Hocc. destruct Hocc as [Hlen Hpi].
  apply ci_prefixb_split in Hpi. destruct Hpi as [Hx Hsplit].
  set (rest := skipn (length a) (skipn i s)) in *.
  assert (occurs b rest) as [k Hb].
  { exists (length (skipn (i + length a) (pre0 ++ x0)) + length mid0).
    exists (skipn (i + length a) (pre0 ++ x0) ++ mid0), y0, post0.
    repeat split; trivial; [|now rewrite length_app].
    unfold rest. rewrite skipn_skipn, (Nat.add_comm (length a)), E.
    replace (pre0 ++ x0 ++ mid0 ++ y0 ++ post0)
      with ((pre0 ++ x0) ++ mid0 ++ y0 ++ post0) by (now rewrite <- app_assoc).
    rewrite skipn_app, <- app_assoc.
    replace (i + length a - length (pre0 ++ x0)) with 0; [reflexivity|].
    rewrite length_app, (ci_eq_length Hx0). lia. }
  destruct (find_ci_complete Hb) as (j & Hj & _).
  apply find_ci_Some in Hj. destruct Hj as [Hoccb Hminb].
  apply occurs_at_skipn in Hoccb. destruct Hoccb as [Hlenb Hpj].
  apply ci_prefixb_split in Hpj. destruct Hpj as [Hy Hsplitb].
  assert (rest = firstn j rest ++ firstn (length b) (skipn j rest)
                 ++ skipn (length b) (skipn j rest)) as Hrest
    by (now rewrite <- Hsplitb, firstn_skipn).
  exists (firstn i s), (firstn (length a) (skipn i s)), (firstn j rest),
    (firstn (length b) (skipn j rest)), (skipn (length b) (skipn j rest)).
  repeat split; trivial.
  - rewrite <- Hrest, <- Hsplit. now rewrite firstn_skipn.
  - intros k' Hk'. apply Hmin. rewrite length_firstn in Hk'. lia.
  - rewrite <- Hrest. intros k' Hk'. apply Hminb.
    rewrite length_firstn in Hk'. lia.
Qed.

Lemma search_complete (a b s : str) :
  contains_block a b s ->
  exists m, search (map Chr a ++ AnyLazy :: map Chr b) s = Some m.
Proof.
  intros H. destruct (first_block_exists H) as (pre & x & mid & y & post & Hf).
  eexists. exact (search_first_block Hf).
Qed.

Lemma search_none (a b s : str) :
  ~ contains_block a b s ->
  search (map Chr a ++ AnyLazy :: map Chr b) s = None.
Proof.
  intros H. destruct (search _ s) as [m|] eqn:E; [|reflexivity].
  exfalso. apply H. exact (search_sound _ _ _ E).
Qed.

Lemma contains_block_occurs (a b s : str) : contains_block a b s -> occurs a s.
Proof.
  intros (pre & x & mid & y & post & -> & Hx & _).
  exists (length pre). now exists pre, x, (mid ++ y ++ post).
Qed.

Lemma search_document_none (text : str) :
  ~ occurs (lit DOCTYPE) text -> search html_pattern_document text = None.
Proof.
  intros H. apply search_none. intros Hb. apply H.
  exact (contains_block_occurs Hb).
Qed.

Lemma search_html_none (text : str) :
  ~ occurs (lit HTML_OPEN) text -> search html_pattern text = None.
Proof.
  intros H. apply search_none. intros Hb. apply H.
  exact (contains_block_occurs Hb).
Qed.

(** The text [b] is a contiguous part of [s], letter for letter. *)
Definition part_of (b s : str) : Prop := exists p q, s = p ++ b ++ q.

(** ** The claims about the extractor *)

(** C4: a text that holds a doctype declaration followed by a closing
    [</html>] tag yields exactly the block that runs from the first doctype
    occurrence to the first closing tag after it, byte for byte; nothing is
    prepended or wrapped around it, so the [<html>] and [<body>] tiers play
    no part in the result. *)
Theorem extract_doctype_document (text : str) :
  contains_block (lit DOCTYPE) (lit HTML_CLOSE) text ->
  exists pre x mid y post,
    first_block (lit DOCTYPE) (lit HTML_CLOSE) text pre x mid y post /\
    extract_html_from_response text = Some (x ++ mid ++ y).
Proof.
  intros H. destruct (first_block_exists H) as (pre & x & mid & y & post & Hf).
  exists pre, x, mid, y, post. split; [exact Hf|].
  unfold extract_html_from_response, html_pattern_document, chars.
  now rewrite (search_first_block Hf).
Qed.

Definition report_reply : str :=
  lit ("Here's your report:" ++ nl ++
       "<!DOCTYPE html><html><body><h1>Hi</h1></body></html>" ++ nl ++
       "Enjoy!").

Lemma extract_doctype_document_witness :
  exists pre x mid y post,
    first_block (lit DOCTYPE) (lit HTML_CLOSE) report_reply pre x mid y post /\
    extract_html_from_response report_reply = Some (x ++ mid ++ y).
Proof.
  apply extract_doctype_document.
  exists (lit ("Here's your report:" ++ nl)), (lit "<!DOCTYPE html>"),
    (lit "<html><body><h1>Hi</h1></body>"), (lit "</html>"),
    (lit (nl ++ "Enjoy!")).
  repeat split; repeat constructor.
Defined.

Example extract_report_reply :
  extract_html_from_response report_reply =
  Some (lit "<!DOCTYPE html><html><body><h1>Hi</h1></body></html>").
Proof. vm_compute. reflexivity. Qed.


Definition html_reply : str :=
  lit ("Sure: <HTML lang=en><body>" ++ nl ++ "<p>x</p></body></html> done").


Example extract_html_reply :
  extract_html_from_response html_reply =
  Some (lit ("<!DOCTYPE html>" ++ nl ++
             "<HTML lang=en><body>" ++ nl ++ "<p>x</p></body></html>")).
Proof. vm_compute. reflexivity. Qed.

(** C6: a text with neither a doctype declaration nor an [<html] opening
    that holds a [<body ...] opening followed by a closing [</body>] tag
    yields a document made of a fixed head, the first such fragment
    unaltered, and a fixed tail; the head carries the UTF-8 charset meta tag
    and the fixed title, and opens the [html] element the tail closes. *)
Theorem extract_body_fragment (text : str) :
  ~ occurs (lit DOCTYPE) text ->
  ~ occurs (lit HTML_OPEN) text ->
  contains_block (lit BODY_OPEN) (lit BODY_CLOSE) text ->
  exists pre x mid y post,
    first_block (lit BODY_OPEN) (lit BODY_CLOSE) text pre x mid y post /\
    extract_html_from_response text
      = Some (shell_head ++ (x ++ mid ++ y) ++ shell_tail) /\
    part_of (lit ("<meta charset=" ++ dq ++ "UTF-8" ++ dq ++ ">")) shell_head /\
    part_of (lit "<title>群聊日报</title>") shell_head /\
    part_of (lit "<html>") shell_head /\
    shell_tail = lit (nl ++ "</html>").
Proof.
  intros Hd Hh H.
  destruct (first_block_exists H) as (pre & x & mid & y & post & Hf).
  exists pre, x, mid, y, post. split; [exact Hf|]. split.
  - unfold extract_html_from_response.
    rewrite (search_document_none Hd), (search_html_none Hh).
    unfold body_pattern, chars. now rewrite (search_first_block Hf).
  - repeat split.
    + exists (lit (DOCTYPE ++ nl ++ "<html>" ++ nl ++ "<head>" ++ nl ++ "    ")),
        (lit (nl ++ "    <title>群聊日报</title>" ++ nl ++ "</head>" ++ nl)).
      reflexivity.
    + exists (lit (DOCTYPE ++ nl ++ "<html>" ++ nl ++ "<head>" ++ nl ++
                   "    <meta charset=" ++ dq ++ "UTF-8" ++ dq ++ ">" ++ nl ++
                   "    ")),
        (lit (nl ++ "</head>" ++ nl)).
      reflexivity.
    + exists (lit (DOCTYPE ++ nl)),
        (lit (nl ++ "<head>" ++ nl ++
              "    <meta charset=" ++ dq ++ "UTF-8" ++ dq ++ ">" ++ nl ++
              "    <title>群聊日报</title>" ++ nl ++ "</head>" ++ nl)).
      reflexivity.
Qed.

Definition body_reply : str :=
  lit ("ok <Body class=r>" ++ nl ++ "<h1>Hi</h1></BODY> bye </body>").

Lemma extract_body_fragment_witness :
  exists pre x mid y post,
    first_block (lit BODY_OPEN) (lit BODY_CLOSE) body_reply pre x mid y post /\
    extract_html_from_response body_reply
      = Some (shell_head ++ (x ++ mid ++ y) ++ shell_tail) /\
    part_of (lit ("<meta charset=" ++ dq ++ "UTF-8" ++ dq ++ ">")) shell_head /\
    part_of (lit "<title>群聊日报</title>") shell_head /\
    part_of (lit "<html>") shell_head /\
    shell_tail = lit (nl ++ "</html>").
Proof.
  apply extract_body_fragment.
  - apply find_ci_None. reflexivity.
  - apply find_ci_None. reflexivity.
  - exists (lit "ok "), (lit "<Body"),
      (lit (" class=r>" ++ nl ++ "<h1>Hi</h1>")), (lit "</BODY>"),
      (lit " bye </body>").
    repeat split; repeat constructor.
Defined.

Example extract_body_reply :
  extract_html_from_response body_reply =
  Some (shell_head ++ lit ("<Body class=r>" ++ nl ++ "<h1>Hi</h1></BODY>")
          ++ shell_tail).
Proof. vm_compute. reflexivity. Qed.

(** C7: extraction is a total function into an optional document, and its
    result is the absent one exactly when the text holds none of the three
    blocks (doctype document, [<html] fragment, [<body] fragment). *)
Theorem extract_not_found (text : str) :
  ~ contains_block (lit DOCTYPE) (lit HTML_CLOSE) text /\
  ~ contains_block (lit HTML_OPEN) (lit HTML_CLOSE) text /\
  ~ contains_block (lit BODY_OPEN) (lit BODY_CLOSE) text
  <-> extract_html_from_response text = None.
Proof.
  unfold extract_html_from_response, html_pattern_document, html_pattern,
    body_pattern, chars.
  split.
  - intros (H1 & H2 & H3).
    now rewrite (search_none H1), (search_none H2), (search_none H3).
  - intros H. repeat split; intros Hb; destruct (search_complete Hb) as [m Hm].
    + now rewrite Hm in H.
    + rewrite Hm in H. now destruct (search _ text).
    + rewrite Hm in H. now do 2 destruct (search _ text).
Qed.

(** The empty reply and a reply without markup have no document. *)
Lemma extract_not_found_witness :
  extract_html_from_response [] = None /\
  extract_html_from_response (lit "no markup here, only <b>prose</b>") = None.
Proof.
  split; apply extract_not_found; repeat split;
    intros H; destruct (search_complete H) as [m Hm]; discriminate Hm.
Defined.

End Extractor.

(* ================================================================= *)
(** * Calls into the operating system and the libraries *)

Module Effects.

(** The exception classes the handlers of the source tell apart. *)
Inductive exn : Type :=
| CalledProcessError    (* [subprocess.run(check=True)] on a non-zero exit *)
| TimeoutExpired        (* the other [subprocess.SubprocessError] *)
| FileNotFoundError
| PermissionError       (* an [OSError] that is not [FileNotFoundError] *)
| ImportError
| ValueError
| OtherException.

Definition is_SubprocessError (e : exn) : bool :=
  match e with CalledProcessError | TimeoutExpired => true | _ => false end.

Definition is_FileNotFoundError (e : exn) : bool :=
  match e with FileNotFoundError => true | _ => false end.

Definition is_ImportError (e : exn) : bool :=
  match e with ImportError => true | _ => false end.

(** [except Exception] (and the bare [except:]). *)
Definition any_exception (e : exn) : bool := true.

(** A Python [float]; it is only handed on to the browser. *)
Definition float := QArith_base.Q.

(** [playwright.sync_api] or [playwright.async_api]. *)
Inductive api : Type := Sync | Async.

(** The calls made on the Playwright objects, with their arguments; a
    keyword argument that is left out is [None]. *)
Inductive pw_op : Type :=
| Start                      (* entering [with sync_playwright() as p] *)
| Stop                       (* leaving it *)
| Launch (args : list string)
| NewPage (viewport : option (Z * Z)) (device_scale_factor : option float)
| Goto (url : string) (timeout : option Z) (wait_until : option string)
| WaitForLoadState (state : string) (timeout : option Z)
| WaitForTimeout (ms : Z)
| WaitForSelector (selector : string) (timeout : Z)
| Evaluate (script : string)
| Screenshot (path : string) (full_page : bool) (omit_background : option bool)
| Close.

Inductive call : Type :=
| SubprocessRun (argv : list string)
    (* [subprocess.run(argv, check=True, stdout=PIPE, stderr=PIPE)] *)
| WebbrowserOpen (url : string)
| ImportFrom (module : string)
| Playwright (a : api) (op : pw_op)
| OpenWrite (path content : string)
    (* [with open(path, "w", encoding="utf-8") as f: f.write(content)] *)
| OpenRead (path : string)
| OsRemove (path : string)
| OsMakedirs (path : string)
| RequestsPost (url : string) (json : list (string * string))
| ResponseJson.

Inductive outcome : Type := Returned | Raised (e : exn).

(** Questions that are answered without changing anything. *)
Inductive query : Type :=
| PathExists (path : string)     (* [os.path.exists] *)
| FindSpec (name : string).      (* [importlib.util.find_spec] *)

(** What a run leaves in its log. *)
Inductive entry : Type :=
| Did (c : call) (o : outcome)
| Saw (q : query) (b : bool).

(** The answer of the image service, as the client reads it. *)
Record response : Type := {
  status_code : Z;
  json_success : bool;                 (* [result.get("success")] is truthy *)
  json_image_path : option string      (* [result.get("image_path")] *)
}.

(** The world outside the program.  [exec] performs a call: it returns or
    raises, and the world moves on.  The other fields read the world or
    are the path functions of the platform. *)
Record Env (W : Type) : Type := {
  exec : call -> W -> outcome * W;
  ask : query -> W -> bool;
  file_text : string -> W -> string;   (* what [f.read()] returned *)
  strftime : W -> string;              (* the clock, as [%Y%m%d_%H%M%S] *)
  last_response : W -> response;
  abspath : string -> string;
  isabs : string -> bool;
  path_join : string -> string -> string;
  splitext_root : string -> string     (* [os.path.splitext(p)[0]] *)
}.

Arguments exec {W}.
Arguments ask {W}.
Arguments file_text {W}.
Arguments strftime {W}.
Arguments last_response {W}.
Arguments abspath {W}.
Arguments isabs {W}.
Arguments path_join {W}.
Arguments splitext_root {W}.

Inductive result (A : Type) : Type :=
| Val (a : A)
| Exc (e : exn).

Arguments Val {A}.
Arguments Exc {A}.

(** A computation: from a world to a value or an exception, the world
    after, and the log of what was done, oldest first. *)
Definition M (W A : Type) : Type := W -> result A * W * list entry.

Section Monad.

Context {W : Type} (E : Env W).

Definition ret {A : Type} (a : A) : M W A := fun w => (Val a, w, []).

Definition raise {A : Type} (e : exn) : M W A := fun w => (Exc e, w, []).

Definition bind {A B : Type} (m : M W A) (k : A -> M W B) : M W B :=
  fun w =>
    match m w with
    | (Val a, w1, l1) => let '(r, w2, l2) := k a w1 in (r, w2, l1 ++ l2)
    | (Exc e, w1, l1) => (Exc e, w1, l1)
    end.

(** Perform a call. *)
Definition perform (c : call) : M W unit :=
  fun w =>
    let '(o, w1) := exec E c w in
    (match o with Returned => Val tt | Raised e => Exc e end, w1, [Did c o]).

(** Ask a question. *)
Definition see (q : query) : M W bool :=
  fun w => let b := ask E q w in (Val b, w, [Saw q b]).

(** Read the world. *)
Definition get {A : Type} (f : W -> A) : M W A := fun w => (Val (f w), w, []).

(** [try: body except <catches> as e: handler e] *)
Definition try_except {A : Type} (body : M W A) (catches : exn -> bool)
    (handler : exn -> M W A) : M W A :=
  fun w =>
    match body w with
    | (Val a, w1, l1) => (Val a, w1, l1)
    | (Exc e, w1, l1) =>
        if catches e
        then let '(r, w2, l2) := handler e w1 in (r, w2, l1 ++ l2)
        else (Exc e, w1, l1)
    end.

(** [with sync_playwright() as p: body] (or [async with]): the exit runs
    however the body ends, a [return] included. *)
Definition with_playwright {A : Type} (a : api) (body : M W A) : M W A :=
  fun w =>
    match perform (Playwright a Start) w with
    | (Exc e, w1, l1) => (Exc e, w1, l1)
    | (Val _, w1, l1) =>
        let '(r, w2, l2) := body w1 in
        match perform (Playwright a Stop) w2 with
        | (Exc e, w3, l3) => (Exc e, w3, l1 ++ l2 ++ l3)
        | (Val _, w3, l3) => (r, w3, l1 ++ l2 ++ l3)
        end
    end.

End Monad.

Declare Scope eff_scope.
Delimit Scope eff_scope with eff.

Notation "x <- m ;; k" := (bind m (fun x => k))
  (at level 61, m at next level, right associativity) : eff_scope.
Notation "m ;;; k" := (bind m (fun _ => k))
  (at level 61, right associativity) : eff_scope.

(** A block of a function body either returns from the function ([Some])
    or falls through to the next statement ([None]). *)
Definition or_else {W A : Type} (r : option A) (rest : M W A) : M W A :=
  match r with
  | Some a => ret a
  | None => rest
  end.

(** The same inside a block that may itself fall through. *)
Definition or_next {W A : Type} (r : option A) (rest : M W (option A))
  : M W (option A) :=
  match r with
  | Some a => ret (Some a)
  | None => rest
  end.

End Effects.

(* ================================================================= *)
(** * The renderer of [app.py] *)

Module Renderer.

Import Effects.
Local Open Scope string_scope.
Local Open Scope eff_scope.

(** The keys of [browser_paths]. *)
Inductive browser : Type := chrome | edge | firefox.

(** The dictionary of [find_browser_path], in insertion order. *)
Definition browser_paths : list (browser * list string) :=
  [ (chrome, [ "C:\Program Files\Google\Chrome\Application\chrome.exe";
               "C:\Program Files (x86)\Google\Chrome\Application\chrome.exe" ]);
    (edge, [ "C:\Program Files (x86)\Microsoft\Edge\Application\msedge.exe";
             "C:\Program Files\Microsoft\Edge\Application\msedge.exe" ]);
    (firefox, [ "C:\Program Files\Mozilla Firefox\firefox.exe";
                "C:\Program Files (x86)\Mozilla Firefox\firefox.exe" ]) ].

(** [except (subprocess.SubprocessError, FileNotFoundError)] *)
Definition subprocess_failure (e : exn) : bool :=
  is_SubprocessError e || is_FileNotFoundError e.

Section Code.

Context {W : Type} (E : Env W).

(** [f"file://{os.path.abspath(html_file_path)}"] *)
Definition file_url (html_file_path : string) : string :=
  "file://" ++ abspath E html_file_path.

(** The inner loop of [find_browser_path]. *)
Fixpoint first_existing (paths : list string) : M W (option string) :=
  match paths with
  | [] => ret None
  | path :: rest =>
      found <- see E (PathExists path) ;;
      if found then ret (Some path) else first_existing rest
  end.

(** The outer loop of [find_browser_path]. *)
Fixpoint find_browser_in (table : list (browser * list string))
  : M W (option (browser * string)) :=
  match table with
  | [] => ret None
  | (name, paths) :: rest =>
      r <- first_existing paths ;;
      match r with
      | Some path => ret (Some (name, path))
      | None => find_browser_in rest
      end
  end.

(** [None] stands for the pair [(None, None)]. *)
Definition find_browser_path : M W (option (browser * string)) :=
  find_browser_in browser_paths.

Definition html_to_png_with_playwright (html_file_path png_file_path : string)
  : M W bool :=
  installed <- see E (FindSpec "playwright") ;;
  if negb installed then ret false
  else
    try_except
      (perform E (ImportFrom "playwright.sync_api") ;;;
       with_playwright E Sync
         (perform E (Playwright Sync (Launch [])) ;;;
          perform E (Playwright Sync (NewPage None None)) ;;;
          perform E (Playwright Sync (Goto (file_url html_file_path) None None)) ;;;
          perform E (Playwright Sync (WaitForLoadState "networkidle" None)) ;;;
          perform E (Playwright Sync (Screenshot png_file_path true None)) ;;;
          perform E (Playwright Sync Close) ;;;
          see E (PathExists png_file_path)))
      any_exception (fun _ => ret false).

(** [browser, "--headless", "--disable-gpu", f"--screenshot={png}", url] *)
Definition screenshot_one_token (exe html png : string) : list string :=
  [exe; "--headless"; "--disable-gpu"; "--screenshot=" ++ png; file_url html].

(** [browser, "--headless", "--disable-gpu", "--screenshot", png, url] *)
Definition screenshot_two_tokens (exe html png : string) : list string :=
  [exe; "--headless"; "--disable-gpu"; "--screenshot"; png; file_url html].

Definition wkhtmltoimage_cmd (html png : string) : list string :=
  ["wkhtmltoimage"; "--quality"; "100"; html; png].

(** The statements every subprocess backend repeats:
    [subprocess.run(cmd, check=True, ...)], then
    [if os.path.exists(png_file_path): return True]. *)
Definition run_and_check (cmd : list string) (png : string)
  : M W (option bool) :=
  perform E (SubprocessRun cmd) ;;;
  made <- see E (PathExists png) ;;
  ret (if made then Some true else None).

(** The body of [convert_html_to_png] from the wkhtmltoimage attempt to
    the end of its [try] block; [found] is what [find_browser_path]
    returned just before. *)
Definition command_backends (found : option (browser * string))
    (html_file_path png_file_path : string) : M W bool :=
  r <- try_except
         (run_and_check (wkhtmltoimage_cmd html_file_path png_file_path)
            png_file_path)
         subprocess_failure (fun _ => ret None) ;;
  or_else r
    (r <- match found with
          | Some (chrome, browser_path) =>
              try_except
                (run_and_check
                   (screenshot_one_token browser_path html_file_path
                      png_file_path) png_file_path)
                subprocess_failure (fun _ => ret None)
          | Some (edge, browser_path) =>
              try_except
                (r1 <- run_and_check
                         (screenshot_two_tokens browser_path html_file_path
                            png_file_path) png_file_path ;;
                 or_next r1
                   (run_and_check
                      (screenshot_one_token browser_path html_file_path
                         png_file_path) png_file_path))
                subprocess_failure (fun _ => ret None)
          | _ => ret None
          end ;;
     or_else r
       (r <- try_except
               (run_and_check
                  (screenshot_one_token "chrome" html_file_path png_file_path)
                  png_file_path)
               subprocess_failure
               (fun _ =>
                  try_except
                    (run_and_check
                       (screenshot_one_token "msedge" html_file_path
                          png_file_path) png_file_path)
                    subprocess_failure (fun _ => ret None)) ;;
        or_else r
          (try_except
             (perform E (WebbrowserOpen (file_url html_file_path)) ;;;
              ret false)
             any_exception (fun _ => ret false)))).

Definition convert_html_to_png (html_file_path png_file_path : string)
  : M W bool :=
  try_except
    (ok <- html_to_png_with_playwright html_file_path png_file_path ;;
     if ok then ret true
     else
       found <- find_browser_path ;;
       command_backends found html_file_path png_file_path)
    any_exception (fun _ => ret false).

(** [html_to_png]; the pair it returns always carries the PNG path. *)
Definition html_to_png (html_content html_file_path png_file_path : option string)
  : M W (bool * string) :=
  match html_content, html_file_path with
  | None, None => raise ValueError
  | _, _ =>
      src <- match html_content with
             | Some content =>
                 timestamp <- get (strftime E) ;;
                 present <- see E (PathExists "output") ;;
                 (if negb present then perform E (OsMakedirs "output")
                  else ret tt) ;;;
                 let temp_file :=
                   path_join E "output" ("temp_" ++ timestamp ++ ".html") in
                 perform E (OpenWrite temp_file content) ;;;
                 ret (Some temp_file, temp_file)
             | None =>
                 ret (None, match html_file_path with
                            | Some p => p
                            | None => ""
                            end)
             end ;;
      let '(temp_file, html_path) := src in
      let png_path := match png_file_path with
                      | Some p => p
                      | None => splitext_root E html_path ++ ".png"
                      end in
      success <- convert_html_to_png html_path png_path ;;
      match temp_file with
      | Some t =>
          if success
          then present <- see E (PathExists t) ;;
               if present
               then try_except (perform E (OsRemove t)) any_exception
                      (fun _ => ret tt)
               else ret tt
          else ret tt
      | None => ret tt
      end ;;;
      ret (success, png_path)
  end.

End Code.

End Renderer.

(* ================================================================= *)
(** * The converter of [html_to_image.py] *)

Module Converter.

Import Effects.
Local Open Scope string_scope.
Local Open Scope eff_scope.

(** The keyword arguments of the two core methods. *)
Record options : Type := {
  viewport_width : Z;
  viewport_height : Z;
  scale_factor : float;
  timeout : Z;
  wait_time : Z;
  full_page : bool
}.

Definition default_options : options :=
  {| viewport_width := 1200;
     viewport_height := 800;
     scale_factor := QArith_base.Qmake 3 2;
     timeout := 60000;
     wait_time := 5000;
     full_page := true |}.

(** The attributes of a [HtmlToImageConverter] the methods read. *)
Record converter : Type := {
  output_dir : string;
  image_dir : string;
  html_dir : string
}.

Definition nl : string := String "010"%char EmptyString.

(** The script handed to [page.evaluate], the same in both methods. *)
Definition images_loaded_script : string :=
  nl ++
  "                () => {" ++ nl ++
  "                    return new Promise((resolve) => {" ++ nl ++
  "                        // 检查所有图片是否加载完成" ++ nl ++
  "                        const allImagesLoaded = Array.from(document.images).every(img => img.complete);" ++ nl ++
  "                        if (allImagesLoaded) {" ++ nl ++
  "                            resolve();" ++ nl ++
  "                        } else {" ++ nl ++
  "                            // 如果有未加载完的图片，等待 'load' 事件" ++ nl ++
  "                            window.addEventListener('load', resolve);" ++ nl ++
  "                        }" ++ nl ++
  "                    });" ++ nl ++
  "                }" ++ nl ++
  "                ".

(** [needle in haystack] *)
Fixpoint contains (needle haystack : string) : bool :=
  if String.prefix needle haystack then true
  else match haystack with
       | EmptyString => false
       | String _ rest => contains needle rest
       end.

(** [s.lower()], on ASCII letters. *)
Fixpoint lower (s : string) : string :=
  match s with
  | EmptyString => EmptyString
  | String c rest => String (Extractor.lower c) (lower rest)
  end.

(** [s.endswith(suffix)] *)
Definition endswith (s suffix : string) : bool :=
  let n := String.length s in
  let k := String.length suffix in
  (k <=? n)%nat && String.eqb (String.substring (n - k) k s) suffix.

Definition launch_args : list string :=
  ["--disable-web-security"; "--allow-file-access-from-files"].

Section Code.

Context {W : Type} (E : Env W).

Definition _convert_html_to_image (html_file_path img_path : string)
    (o : options) : M W (bool * option string) :=
  try_except
    (imported <- try_except
                   (perform E (ImportFrom "playwright.sync_api") ;;; ret true)
                   is_ImportError (fun _ => ret false) ;;
     if negb imported then ret (false, None)
     else
       let abs_html_path := abspath E html_file_path in
       let abs_img_path := abspath E img_path in
       with_playwright E Sync
         (perform E (Playwright Sync (Launch launch_args)) ;;;
          perform E (Playwright Sync
                       (NewPage (Some (viewport_width o, viewport_height o))
                                (Some (scale_factor o)))) ;;;
          try_except
            (perform E (Playwright Sync
                          (Goto ("file://" ++ abs_html_path) (Some (timeout o))
                                (Some "domcontentloaded"))) ;;;
             perform E (Playwright Sync
                          (WaitForLoadState "networkidle" (Some (timeout o)))))
            any_exception (fun _ => ret tt) ;;;
          perform E (Playwright Sync (WaitForTimeout (wait_time o))) ;;;
          perform E (OpenRead abs_html_path) ;;;
          html_content <- get (file_text E abs_html_path) ;;
          (if contains "<canvas" html_content
           then try_except
                  (perform E (Playwright Sync (WaitForSelector "canvas" 5000)))
                  any_exception (fun _ => ret tt)
           else ret tt) ;;;
          perform E (Playwright Sync (Evaluate images_loaded_script)) ;;;
          perform E (Playwright Sync
                       (Screenshot abs_img_path (full_page o) (Some false))) ;;;
          perform E (Playwright Sync Close)) ;;;
       made <- see E (PathExists abs_img_path) ;;
       if made then ret (true, Some abs_img_path) else ret (false, None))
    any_exception (fun _ => ret (false, None)).

Definition _convert_html_to_image_async (html_file_path img_path : string)
    (o : options) : M W (bool * option string) :=
  try_except
    (imported <- try_except
                   (perform E (ImportFrom "playwright.async_api") ;;; ret true)
                   is_ImportError (fun _ => ret false) ;;
     if negb imported then ret (false, None)
     else
       let abs_html_path := abspath E html_file_path in
       let abs_img_path := abspath E img_path in
       with_playwright E Async
         (perform E (Playwright Async (Launch launch_args)) ;;;
          perform E (Playwright Async
                       (NewPage (Some (viewport_width o, viewport_height o))
                                (Some (scale_factor o)))) ;;;
          try_except
            (perform E (Playwright Async
                          (Goto ("file://" ++ abs_html_path) (Some (timeout o))
                                (Some "domcontentloaded"))) ;;;
             perform E (Playwright Async
                          (WaitForLoadState "networkidle" (Some (timeout o)))))
            any_exception (fun _ => ret tt) ;;;
          perform E (Playwright Async (WaitForTimeout (wait_time o))) ;;;
          perform E (OpenRead abs_html_path) ;;;
          html_content <- get (file_text E abs_html_path) ;;
          (if contains "<canvas" html_content
           then try_except
                  (perform E (Playwright Async (WaitForSelector "canvas" 5000)))
                  any_exception (fun _ => ret tt)
           else ret tt) ;;;
          perform E (Playwright Async (Evaluate images_loaded_script)) ;;;
          perform E (Playwright Async
                       (Screenshot abs_img_path (full_page o) (Some false))) ;;;
          perform E (Playwright Async Close)) ;;;
       made <- see E (PathExists abs_img_path) ;;
       if made then ret (true, Some abs_img_path) else ret (false, None))
    any_exception (fun _ => ret (false, None)).

(** [f'temp_{timestamp}.html'] under [self.html_dir]. *)
Definition temp_html_path_of (self : converter) (timestamp : string) : string :=
  path_join E (html_dir self) ("temp_" ++ timestamp ++ ".html").

Definition convert_html_string (self : converter) (html_content : string)
    (image_name : option string) (delete_html : bool) (kwargs : options)
  : M W (bool * option string) :=
  timestamp <- get (strftime E) ;;
  let temp_html_path := temp_html_path_of self timestamp in
  let image_name :=
    match image_name with
    | None => "image_" ++ timestamp ++ ".png"
    | Some name => if endswith (lower name) ".png" then name else name ++ ".png"
    end in
  let img_path := path_join E (image_dir self) image_name in
  saved <- try_except
             (perform E (OpenWrite temp_html_path html_content) ;;; ret true)
             any_exception (fun _ => ret false) ;;
  if negb saved then ret (false, None)
  else
    res <- _convert_html_to_image temp_html_path img_path kwargs ;;
    (if delete_html
     then present <- see E (PathExists temp_html_path) ;;
          if present
          then try_except (perform E (OsRemove temp_html_path)) any_exception
                 (fun _ => ret tt)
          else ret tt
     else ret tt) ;;;
    ret res.

End Code.

End Converter.

(* ================================================================= *)
(** * The client of [app/utils/helpers.py] *)

Module Helpers.

Import Effects.
Local Open Scope string_scope.
Local Open Scope eff_scope.

Section Code.

Context {W : Type} (E : Env W).

(** [settings.HTML_TO_IMAGE_SERVICE_URL] *)
Variable HTML_TO_IMAGE_SERVICE_URL : string.

Definition request_data (html_content html_file_path png_file_path : option string)
  : list (string * string) :=
  (match html_content with
   | Some c => [("html_content", c)]
   | None => []
   end ++
   match html_file_path with
   | Some p => [("html_file_path", abspath E p)]
   | None => []
   end ++
   match png_file_path with
   | Some p => [("png_file_path", abspath E p)]
   | None => []
   end)%list.

Definition convert_html_to_image
    (html_content html_file_path png_file_path : option string)
  : M W (bool * option string) :=
  match html_content, html_file_path with
  | None, None => ret (false, None)
  | _, _ =>
      try_except
        (let service_url :=
           match html_file_path with
           | Some _ => HTML_TO_IMAGE_SERVICE_URL ++ "/convert/path"
           | None => HTML_TO_IMAGE_SERVICE_URL ++ "/convert"
           end in
         perform E (RequestsPost service_url
                      (request_data html_content html_file_path png_file_path)) ;;;
         response <- get (last_response E) ;;
         if (status_code response =? 200)%Z
         then
           perform E ResponseJson ;;;
           if json_success response
           then
             let png_path :=
               match json_image_path response with
               | Some p =>
                   if negb (String.eqb p "") && negb (isabs E p)
                   then Some (abspath E p) else Some p
               | None => None
               end in
             ret (true, png_path)
           else ret (false, None)
         else ret (false, None))
        any_exception (fun _ => ret (false, None))
  end.

End Code.

End Helpers.

(* ================================================================= *)
(** * Concrete worlds, for running the code *)

Module Worlds.

Import Effects.
Local Open Scope string_scope.

(** The world is the list of the paths that exist. *)
Definition world := list string.

Definition exists_in (p : string) (w : world) : bool :=
  existsb (String.eqb p) w.

Definition remove_path (p : string) (w : world) : world :=
  filter (fun q => negb (String.eqb p q)) w.

(** The head of a command line. *)
Definition program (argv : list string) : string := hd "" argv.

(** POSIX [os.path.splitext(p)[0]] on a path without directory dots. *)
Fixpoint strip_ext (p : string) : string :=
  match p with
  | EmptyString => EmptyString
  | String c rest =>
      if (Ascii.eqb c "."%char && negb (existsb (Ascii.eqb "."%char)
                                         (list_ascii_of_string rest)))%bool
      then EmptyString
      else String c (strip_ext rest)
  end.

(** An environment given by what each call does; files are created,
    read and removed as the calls say. *)
Definition scripted (installed : bool) (behave : call -> world -> outcome * world)
    (answer : response) : Env world :=
  {| exec := behave;
     ask := fun q w => match q with
                       | PathExists p => exists_in p w
                       | FindSpec _ => installed
                       end;
     file_text := fun _ _ => "<html><body><canvas></canvas></body></html>";
     strftime := fun _ => "20250101_120000";
     last_response := fun _ => answer;
     abspath := fun p => if String.prefix "/" p then p else "/work/" ++ p;
     isabs := fun p => String.prefix "/" p;
     path_join := fun a b => a ++ "/" ++ b;
     splitext_root := strip_ext |}.

Definition no_answer : response :=
  {| status_code := 500; json_success := false; json_image_path := None |}.

(** File operations that work; every program is missing. *)
Definition files_only (c : call) (w : world) : outcome * world :=
  match c with
  | OpenWrite p _ => (Returned, p :: w)
  | OsMakedirs p => (Returned, p :: w)
  | OsRemove p => (Returned, remove_path p w)
  | OpenRead _ => (Returned, w)
  | SubprocessRun _ => (Raised FileNotFoundError, w)
  | WebbrowserOpen _ => (Returned, w)
  | ImportFrom _ => (Raised ImportError, w)
  | _ => (Raised OtherException, w)
  end.

(** No Playwright, no wkhtmltoimage, no browser at a vendor path; [chrome]
    is on the PATH, exits with status zero and writes nothing. *)
Definition silent_chrome (c : call) (w : world) : outcome * world :=
  match c with
  | SubprocessRun argv =>
      if String.eqb (program argv) "chrome" then (Returned, w)
      else (Raised FileNotFoundError, w)
  | _ => files_only c w
  end.

Definition chrome_exe : string :=
  "C:\Program Files\Google\Chrome\Application\chrome.exe".

(** Chrome is installed at its vendor path, exits with status zero and
    writes nothing; no other program is there. *)
Definition silent_vendor_chrome (c : call) (w : world) : outcome * world :=
  match c with
  | SubprocessRun argv =>
      if String.eqb (program argv) chrome_exe then (Returned, w)
      else (Raised FileNotFoundError, w)
  | _ => files_only c w
  end.

(** [wkhtmltoimage] is found but may not be executed. *)
Definition forbidden_wkhtmltoimage (c : call) (w : world) : outcome * world :=
  match c with
  | SubprocessRun argv =>
      if String.eqb (program argv) "wkhtmltoimage" then (Raised PermissionError, w)
      else (Raised FileNotFoundError, w)
  | _ => files_only c w
  end.

(** [wkhtmltoimage] writes the image and exits with a non-zero status. *)
Definition failing_wkhtmltoimage (c : call) (w : world) : outcome * world :=
  match c with
  | SubprocessRun argv =>
      if String.eqb (program argv) "wkhtmltoimage"
      then (Raised CalledProcessError, nth 4 argv "" :: w)
      else (Raised FileNotFoundError, w)
  | _ => files_only c w
  end.

(** Playwright is installed and works: the screenshot writes its file. *)
Definition working_playwright (c : call) (w : world) : outcome * world :=
  match c with
  | ImportFrom _ => (Returned, w)
  | Playwright _ (Screenshot p _ _) => (Returned, p :: w)
  | Playwright _ _ => (Returned, w)
  | _ => files_only c w
  end.

End Worlds.

(* ================================================================= *)
(** * Logs *)

Module Logs.

Import Effects.
Local Open Scope string_scope.

(** ** Reading a log *)

(** A backend attempt, as the log shows it: the Playwright backend starts
    with the [find_spec] probe, a command-line backend is a subprocess, and
    the last resort opens the default browser. *)
Inductive attempt : Type :=
| ByPlaywright
| ByCommand (argv : list string)
| ByHand (url : string).

Definition attempt_of (e : entry) : list attempt :=
  match e with
  | Saw (FindSpec _) _ => [ByPlaywright]
  | Did (SubprocessRun argv) _ => [ByCommand argv]
  | Did (WebbrowserOpen url) _ => [ByHand url]
  | _ => []
  end.

Definition attempts (log : list entry) : list attempt := flat_map attempt_of log.

(** [l] is [m] with some elements left out. *)
Inductive subseq {A : Type} : list A -> list A -> Prop :=
| subseq_nil : forall m, subseq [] m
| subseq_take : forall x l m, subseq l m -> subseq (x :: l) (x :: m)
| subseq_skip : forall x l m, subseq l m -> subseq l (x :: m).

Definition ends_with {A : Type} (suffix l : list A) : Prop :=
  exists front, l = (front ++ suffix)%list.

(** Some subprocess returned and the destination was then seen to exist. *)
Fixpoint command_succeeded (png : string) (log : list entry) : bool :=
  match log with
  | [] => false
  | Did (SubprocessRun _) Returned :: (Saw (PathExists p) true :: _) as rest =>
      String.eqb p png || command_succeeded png rest
  | _ :: rest => command_succeeded png rest
  end.

(** The HTML file was opened in the default browser. *)
Definition hand_opened (log : list entry) : bool :=
  existsb (fun e => match e with Did (WebbrowserOpen _) _ => true | _ => false end)
          log.

(** No subprocess was run and no browser opened by hand. *)
Definition quiet (log : list entry) : bool :=
  forallb (fun e => match e with
                    | Did (SubprocessRun _) _ | Did (WebbrowserOpen _) _ => false
                    | _ => true
                    end) log.


Lemma ends_with_here (A : Type) (s : list A) : ends_with s s.
Proof. now exists []. Qed.

Lemma ends_with_cons (A : Type) (s l : list A) (x : A) :
  ends_with s l -> ends_with s (x :: l).
Proof. intros [f ->]. now exists (x :: f). Qed.





(** One step of symbolic execution: case analysis on the next answer of
    the world, or on the next test the code makes on an exception or on a
    file's text. *)
Ltac step :=
  match goal with
  | |- context [exec ?E ?c ?w] =>
      let o := fresh "o" in
      let w' := fresh "w" in
      let H := fresh "Hexec" in
      destruct (exec E c w) as [o w'] eqn:H; destruct o
  | |- context [ask ?E ?q ?w] =>
      let H := fresh "Hask" in destruct (ask E q w) eqn:H
  | |- context [Renderer.subprocess_failure ?e] =>
      let H := fresh "Hcatch" in destruct (Renderer.subprocess_failure e) eqn:H
  | |- context [is_ImportError ?e] =>
      let H := fresh "Hcatch" in destruct (is_ImportError e) eqn:H
  | |- context [Converter.contains ?a ?b] =>
      let H := fresh "Hin" in destruct (Converter.contains a b) eqn:H
  end; cbn [negb].

Ltac unfold_monad :=
  cbv beta delta [bind try_except with_playwright perform see get ret raise
    or_else or_next any_exception].

Ltac close_ends :=
  repeat first [ apply ends_with_here | apply ends_with_cons ].

Ltac close_subseq :=
  repeat first [ apply subseq_nil | apply subseq_take | apply subseq_skip ].

End Logs.

(* ================================================================= *)
(** * The renderer of [app.py]: what every run does *)

Module RendererFacts.

Import Effects Renderer Logs.
Local Open Scope string_scope.

Section Plans.

Context {W : Type} (E : Env W).

(** The command-line backends in the order of the source. *)
Definition command_plan (found : option (browser * string)) (html png : string)
  : list attempt :=
  ([ByCommand (wkhtmltoimage_cmd html png)] ++
   match found with
   | Some (chrome, path) => [ByCommand (screenshot_one_token E path html png)]
   | Some (edge, path) => [ByCommand (screenshot_two_tokens E path html png);
                           ByCommand (screenshot_one_token E path html png)]
   | _ => []
   end ++
   [ByCommand (screenshot_one_token E "chrome" html png);
    ByCommand (screenshot_one_token E "msedge" html png);
    ByHand (file_url E html)])%list.


(** The attempts that do not depend on how an earlier one failed: the plan
    without the second Edge form and without [msedge] by name. *)
Definition command_core (found : option (browser * string)) (html png : string)
  : list attempt :=
  ([ByCommand (wkhtmltoimage_cmd html png)] ++
   match found with
   | Some (chrome, path) => [ByCommand (screenshot_one_token E path html png)]
   | Some (edge, path) => [ByCommand (screenshot_two_tokens E path html png)]
   | _ => []
   end ++
   [ByCommand (screenshot_one_token E "chrome" html png);
    ByHand (file_url E html)])%list.


End Plans.

Section Stages.

Context {W : Type} (E : Env W).

Lemma find_browser_path_spec (w : W) :
  exists found l,
    find_browser_path E w = (Val found, w, l) /\
    quiet l = true /\ attempts l = [].
Proof.
  unfold find_browser_path, find_browser_in, first_existing, browser_paths.
  unfold_monad. cbn [negb].
  repeat step; do 2 eexists; repeat split.
Qed.

Lemma playwright_spec (html png : string) (w : W) :
  exists b w1 b0 l,
    html_to_png_with_playwright E html png w
      = (Val b, w1, Saw (FindSpec "playwright") b0 :: l) /\
    quiet l = true /\ attempts l = [] /\
    (b = true ->
     ends_with [Did (Playwright Sync Close) Returned;
                Saw (PathExists png) true;
                Did (Playwright Sync Stop) Returned] l).
Proof.
  unfold html_to_png_with_playwright. unfold_monad. cbn [negb].
  repeat step; do 4 eexists; (split; [reflexivity|]); cbn;
    repeat split; try discriminate; intros _; close_ends.
Qed.

Ltac read_log :=
  cbn [attempts flat_map attempt_of app command_plan command_core
       command_succeeded hand_opened existsb orb].

(** What the command-line backends do, whatever the world answers. *)
Lemma command_backends_spec (found : option (browser * string))
    (html png : string) (w : W) :
  let '(r, w', l) := command_backends E found html png w in
  subseq (attempts l) (command_plan E found html png) /\
  (r = Val true ->
   exists argv,
     ends_with [Did (SubprocessRun argv) Returned; Saw (PathExists png) true] l) /\
  (command_succeeded png l = true -> r = Val true) /\
  (r = Val false ->
   exists o, ends_with [Did (WebbrowserOpen (file_url E html)) o] l) /\
  (hand_opened l = true -> r = Val false) /\
  (forall e, r = Exc e ->
     subprocess_failure e = false /\
     exists argv w0 w1, exec E (SubprocessRun argv) w0 = (Raised e, w1)) /\
  (r = Val false -> subseq (command_core E found html png) (attempts l)).
Proof.
  destruct found as [[[] path]|]; unfold command_backends, run_and_check;
    unfold_monad; cbn [negb];
    repeat step; read_log.
  all: split; [close_subseq|].
  all: split; [first [discriminate 1 | intros _; eexists; close_ends]|].
  all: split; [first [reflexivity | discriminate 1 | intros _; reflexivity]|].
  all: split; [first [discriminate 1 | intros _; eexists; close_ends]|].
  all: split; [first [reflexivity | discriminate 1 | intros _; reflexivity]|].
  all: split; [|first [discriminate 1 | intros _; close_subseq]].
  all: intros ? Hraised;
    first [ discriminate Hraised
          | injection Hraised as <-; split; [assumption | eauto] ].
Qed.


(** No exception leaves [convert_html_to_png], and it returns [True] only
    after the destination file was seen. *)
Lemma convert_html_to_png_returns (html png : string) (w : W) :
  let '(r, _, log) := convert_html_to_png E html png w in
  exists b, r = Val b /\ (b = true -> In (Saw (PathExists png) true) log).
Proof.
  unfold convert_html_to_png, try_except, bind.
  destruct (playwright_spec html png w) as (b & w1 & b0 & lp & -> & _ & _ & Hb).
  destruct (find_browser_path_spec w1) as (found & lf & Hf & _).
  destruct b.
  - cbn. exists true. split; [reflexivity|]. intros _.
    destruct (Hb eq_refl) as [front ->]. rewrite app_nil_r. right.
    rewrite in_app_iff. simpl. tauto.
  - rewrite Hf.
    pose proof (command_backends_spec found html png w1) as Hc.
    destruct (command_backends E found html png w1) as [[r w3] l].
    destruct Hc as (_ & Hok & _).
    destruct r as [b|e]; cbn [app any_exception ret]; rewrite ?app_nil_r.
    + exists b. split; [reflexivity|]. intros ->.
      destruct (Hok eq_refl) as (argv & front & ->). right.
      rewrite !in_app_iff. simpl. tauto.
    + exists false. split; [reflexivity | discriminate].
Qed.



End Stages.

Section Orchestrator.

Context {W : Type} (E : Env W).

Ltac run_convert :=
  match goal with
  | |- context [convert_html_to_png ?E' ?h ?p ?w] =>
      let Hc := fresh "Hc" in
      let b := fresh "b" in
      pose proof (convert_html_to_png_returns E' h p w) as Hc;
      destruct (convert_html_to_png E' h p w) as [[? ?] ?];
      destruct Hc as (b & -> & Hseen)
  end.

(** [html_to_png] hands back the destination path it was given, or the one
    it derived, whatever the outcome; when it reports success, the
    destination file was seen to exist during the call. *)
Lemma html_to_png_result (html_content html_file_path png_file_path : option string)
    (w : W) :
  let '(r, _, log) := html_to_png E html_content html_file_path png_file_path w in
  forall success png,
    r = Val (success, png) ->
    (forall q, png_file_path = Some q -> png = q) /\
    (success = true -> In (Saw (PathExists png) true) log).
Proof.
  destruct html_content as [content|], html_file_path as [path|],
    png_file_path as [q|]; unfold html_to_png; unfold_monad; cbn [negb];
    try (intros ? ? [=]).
  all: repeat step; try (intros ? ? [=]).
  all: run_convert; cbn beta iota zeta.
  all: match goal with |- context [if ?b then _ else _] => destruct b | _ => idtac end.
  all: repeat step.
  all: intros ? ? [= <- <-]; (split; [intros ? [=]; congruence|]).
  all: intros Hs; try discriminate Hs; specialize (Hseen Hs);
    rewrite ?in_app_iff; simpl; tauto.
Qed.

(** C8, as the code has it: when both [html_content] and [html_file_path]
    are [None], [html_to_png] raises [ValueError] and the client
    [convert_html_to_image] returns [(False, None)]; neither writes a
    file, calls a backend or the service, or changes anything. *)
Theorem invalid_argument_rejected (service_url : string)
    (png_file_path : option string) (w : W) :
  html_to_png E None None png_file_path w = (Exc ValueError, w, []) /\
  Helpers.convert_html_to_image E service_url None None png_file_path w
    = (Val (false, None), w, []).
Proof. split; reflexivity. Qed.

End Orchestrator.

(** ** The claims as the specification words them, on concrete worlds *)




(** An argument is empty or absent. *)
Definition blank (a : option string) : bool :=
  match a with
  | None => true
  | Some s => String.eqb s ""
  end.

(** C8 as stated: without content and without a source path the call
    fails at once, before anything is written or tried. *)
Definition claimed_invalid_argument {W : Type} (E : Env W)
    (html_content html_file_path png_file_path : option string) (w : W) : Prop :=
  blank html_content = true -> blank html_file_path = true ->
  exists e,
    html_to_png E html_content html_file_path png_file_path w = (Exc e, w, []).

Import Worlds.


Example silent_chrome_attempts :
  let '(r, _, log) :=
    convert_html_to_png (scripted false silent_chrome no_answer)
      "r.html" "r.png" [] in
  r = Val false /\
  attempts log =
    [ByPlaywright;
     ByCommand ["wkhtmltoimage"; "--quality"; "100"; "r.html"; "r.png"];
     ByCommand ["chrome"; "--headless"; "--disable-gpu"; "--screenshot=r.png";
                "file:///work/r.html"];
     ByHand "file:///work/r.html"].
Proof. vm_compute. split; reflexivity. Qed.

(** Chrome found at its vendor path is run once, with the one-token flag,
    and [msedge] by name is run with the one-token flag too. *)
Example silent_vendor_chrome_attempts :
  let '(r, _, log) :=
    convert_html_to_png (scripted false silent_vendor_chrome no_answer)
      "r.html" "r.png" [chrome_exe] in
  r = Val false /\
  attempts log =
    [ByPlaywright;
     ByCommand ["wkhtmltoimage"; "--quality"; "100"; "r.html"; "r.png"];
     ByCommand [chrome_exe; "--headless"; "--disable-gpu"; "--screenshot=r.png";
                "file:///work/r.html"];
     ByCommand ["chrome"; "--headless"; "--disable-gpu"; "--screenshot=r.png";
                "file:///work/r.html"];
     ByCommand ["msedge"; "--headless"; "--disable-gpu"; "--screenshot=r.png";
                "file:///work/r.html"];
     ByHand "file:///work/r.html"].
Proof. vm_compute. split; reflexivity. Qed.


Example permission_error_attempts :
  let '(r, _, log) :=
    convert_html_to_png (scripted false forbidden_wkhtmltoimage no_answer)
      "r.html" "r.png" [] in
  r = Val false /\
  attempts log =
    [ByPlaywright;
     ByCommand ["wkhtmltoimage"; "--quality"; "100"; "r.html"; "r.png"]].
Proof. vm_compute. split; reflexivity. Qed.

(** wkhtmltoimage writes the image and exits with a non-zero status: the
    call returns [False] although the destination file exists. *)
Example nonzero_exit_with_image :
  let '(r, w', _) :=
    convert_html_to_png (scripted false failing_wkhtmltoimage no_answer)
      "r.html" "r.png" [] in
  r = Val false /\ exists_in "r.png" w' = true.
Proof. vm_compute. split; reflexivity. Qed.

(** An empty [html_content] is content: the file is written and the
    backends are tried. *)
Lemma empty_content_is_rendered :
  ~ claimed_invalid_argument (scripted false files_only no_answer)
      (Some "") None None [].
Proof.
  unfold claimed_invalid_argument. vm_compute.
  intros H. destruct (H eq_refl eq_refl) as [e He]. discriminate He.
Qed.


End RendererFacts.

(* ================================================================= *)
(** * The converter of [html_to_image.py]: what every run does *)

Module ConverterFacts.

Import Effects Converter Logs.
Local Open Scope string_scope.

(** The invariant of a render result [(success, path)] in the world [w]
    the call returns in. *)
Definition render_result_invariant {W : Type} (E : Env W)
    (res : bool * option string) (w : W) : Prop :=
  (fst res = true ->
   exists p, snd res = Some p /\ ask E (PathExists p) w = true) /\
  (fst res = false -> snd res = None).

(** The two APIs drive the same browser: a call answers the same through
    either, and either module can be imported when the other can. *)
Definition api_blind {W : Type} (E : Env W) : Prop :=
  (forall op w, exec E (Playwright Async op) w = exec E (Playwright Sync op) w) /\
  (forall w, exec E (ImportFrom "playwright.async_api") w
             = exec E (ImportFrom "playwright.sync_api") w).

(** A log entry without the API it went through. *)
Definition forget_api (e : entry) : entry :=
  match e with
  | Did (Playwright _ op) o => Did (Playwright Sync op) o
  | Did (ImportFrom _) o => Did (ImportFrom "playwright") o
  | _ => e
  end.


Section Core.

Context {W : Type} (E : Env W).

Ltac close_result :=
  eexists; split; [reflexivity|]; unfold render_result_invariant;
  cbn [fst snd]; repeat split; try discriminate; eauto.

Lemma convert_sync_result (html img : string) (o : options) (w : W) :
  let '(r, w', _) := _convert_html_to_image E html img o w in
  exists res, r = Val res /\ render_result_invariant E res w' /\
              (fst res = true -> snd res = Some (abspath E img)).
Proof.
  unfold _convert_html_to_image. unfold_monad. cbn [negb].
  repeat step; close_result.
Qed.

Lemma convert_async_result (html img : string) (o : options) (w : W) :
  let '(r, w', _) := _convert_html_to_image_async E html img o w in
  exists res, r = Val res /\ render_result_invariant E res w' /\
              (fst res = true -> snd res = Some (abspath E img)).
Proof.
  unfold _convert_html_to_image_async. unfold_monad. cbn [negb].
  repeat step; close_result.
Qed.

Ltac lockstep Hpw Himp :=
  repeat (rewrite ?Hpw, ?Himp; step).

(** C9: when the two Playwright APIs answer alike, the blocking and the
    non-blocking method make the same calls with the same arguments in the
    same order, return the same [(success, path)] pair and leave the same
    world. *)
Theorem convert_sync_async_equivalent (html img : string) (o : options) (w : W) :
  api_blind E ->
  let '(r1, w1, l1) := _convert_html_to_image E html img o w in
  let '(r2, w2, l2) := _convert_html_to_image_async E html img o w in
  r1 = r2 /\ w1 = w2 /\ map forget_api l1 = map forget_api l2.
Proof.
  intros [Hpw Himp].
  unfold _convert_html_to_image, _convert_html_to_image_async.
  unfold_monad. cbn [negb].
  lockstep Hpw Himp.
  all: repeat split.
Qed.


(** C3, as the code has it: a result of [_convert_html_to_image] or of its
    async variant satisfies the invariant -- on success the path is set
    and the file exists in the world the call returns in, on failure the
    path is [None] --; [html_to_png] returns its destination path whatever
    the outcome, and when it reports success the destination file was
    seen to exist during the call. *)
Theorem render_result_invariants (html img : string) (o : options)
    (html_content html_file_path png_file_path : option string) (w : W) :
  (let '(r, w', _) := _convert_html_to_image E html img o w in
   exists res, r = Val res /\ render_result_invariant E res w') /\
  (let '(r, w', _) := _convert_html_to_image_async E html img o w in
   exists res, r = Val res /\ render_result_invariant E res w') /\
  (let '(r, _, log) :=
     Renderer.html_to_png E html_content html_file_path png_file_path w in
   forall success png,
     r = Val (success, png) ->
     (forall q, png_file_path = Some q -> png = q) /\
     (success = true -> In (Saw (PathExists png) true) log)).
Proof.
  split; [|split].
  - pose proof (convert_sync_result html img o w) as H.
    destruct (_convert_html_to_image E html img o w) as [[r w'] l].
    destruct H as (res & Hr & Hinv & _). now exists res.
  - pose proof (convert_async_result html img o w) as H.
    destruct (_convert_html_to_image_async E html img o w) as [[r w'] l].
    destruct H as (res & Hr & Hinv & _). now exists res.
  - apply RendererFacts.html_to_png_result.
Qed.

End Core.

(** ** On concrete worlds *)

Import Worlds.

(** C3 as stated, for [html_to_png]: the pair it returns satisfies the
    invariant in the world it returns in. *)
Definition claimed_html_to_png_invariant {W : Type} (E : Env W)
    (html_content html_file_path png_file_path : option string) (w : W) : Prop :=
  let '(r, w', _) :=
    Renderer.html_to_png E html_content html_file_path png_file_path w in
  forall success png,
    r = Val (success, png) -> render_result_invariant E (success, Some png) w'.

(** With no backend available [html_to_png] returns [(False, "r.png")]: a
    failure that carries a path. *)
Lemma html_to_png_failure_carries_path :
  ~ claimed_html_to_png_invariant (scripted false files_only no_answer)
      None (Some "r.html") None [].
Proof.
  unfold claimed_html_to_png_invariant. vm_compute.
  intros H. destruct (H false "r.png" eq_refl) as [_ H2].
  discriminate (H2 eq_refl).
Qed.

Lemma working_playwright_api_blind :
  api_blind (scripted true working_playwright no_answer).
Proof. split; [intros [] ?|intros ?]; reflexivity. Defined.

Lemma convert_sync_async_equivalent_witness :
  let E := scripted true working_playwright no_answer in
  api_blind E /\
  (let '(r1, w1, l1) := _convert_html_to_image E "r.html" "r.png"
                          default_options [] in
   let '(r2, w2, l2) := _convert_html_to_image_async E "r.html" "r.png"
                          default_options [] in
   r1 = r2 /\ w1 = w2 /\ map forget_api l1 = map forget_api l2).
Proof.
  split; [exact working_playwright_api_blind|].
  exact (@convert_sync_async_equivalent _
           (scripted true working_playwright no_answer)
           "r.html" "r.png" default_options [] working_playwright_api_blind).
Defined.

Definition demo : converter :=
  {| output_dir := "output";
     image_dir := "output/images";
     html_dir := "output/html_files" |}.

(** A rendering that succeeds: the image is there, the temporary file is
    not. *)
Example convert_html_string_success :
  let '(r, w', _) :=
    convert_html_string (scripted true working_playwright no_answer) demo
      "<html></html>" None true default_options [] in
  r = Val (true, Some "/work/output/images/image_20250101_120000.png") /\
  exists_in "/work/output/images/image_20250101_120000.png" w' = true /\
  exists_in "output/html_files/temp_20250101_120000.html" w' = false.
Proof. vm_compute. repeat split. Qed.

(** A rendering that fails (Playwright cannot be imported): no image, no
    path, and no temporary file either. *)
Example convert_html_string_failure :
  let '(r, w', _) :=
    convert_html_string (scripted false files_only no_answer) demo
      "<html></html>" None true default_options [] in
  r = Val (false, None) /\ w' = [].
Proof. vm_compute. repeat split. Qed.

End ConverterFacts.

(* ================================================================= *)
(** * The constructor and the file methods of [html_to_image.py] *)

Module ConverterFiles.

Import Effects Converter.
Local Open Scope string_scope.
Local Open Scope eff_scope.

(** [if not name.lower().endswith('.png'): name += '.png'] *)
Definition png_suffixed (image_name : string) : string :=
  if endswith (lower image_name) ".png" then image_name
  else image_name ++ ".png".

Section Code.

Context {W : Type} (E : Env W).

(** [os.path.dirname] and [os.path.basename] of the platform. *)
Variables dirname basename : string -> string.

(** [if not os.path.exists(directory): os.makedirs(directory)], for each
    directory of the list in turn. *)
Fixpoint makedirs_missing (directories : list string) : M W unit :=
  match directories with
  | [] => ret tt
  | directory :: rest =>
      present <- see E (PathExists directory) ;;
      (if negb present then perform E (OsMakedirs directory) else ret tt) ;;;
      makedirs_missing rest
  end.

(** [HtmlToImageConverter.__init__] *)
Definition __init__ (output_dir image_dir html_dir : string) : M W converter :=
  let self_image_dir :=
    if isabs E image_dir then image_dir else path_join E output_dir image_dir in
  let self_html_dir :=
    if isabs E html_dir then html_dir else path_join E output_dir html_dir in
  makedirs_missing [output_dir; self_image_dir; self_html_dir] ;;;
  ret {| Converter.output_dir := output_dir;
         Converter.image_dir := self_image_dir;
         Converter.html_dir := self_html_dir |}.

(** [HtmlToImageConverter.convert_html_file] *)
Definition convert_html_file (self : converter) (html_file_path : string)
    (png_file_path image_name : option string) (kwargs : options)
  : M W (bool * option string) :=
  present <- see E (PathExists html_file_path) ;;
  if negb present then ret (false, None)
  else
    img_path <-
      match png_file_path with
      | Some (String _ _ as img_path) =>
          let output_dir := dirname img_path in
          there <- see E (PathExists output_dir) ;;
          (if negb there then perform E (OsMakedirs output_dir) else ret tt) ;;;
          ret img_path
      | _ =>
          let image_name :=
            match image_name with
            | None =>
                let base_name := basename html_file_path in
                let name_without_ext := splitext_root E base_name in
                name_without_ext ++ ".png"
            | Some name =>
                if endswith (lower name) ".png" then name else name ++ ".png"
            end in
          ret (path_join E (image_dir self) image_name)
      end ;;
    _convert_html_to_image E html_file_path img_path kwargs.

(** [HtmlToImageConverter.convert_html_file_async] *)
Definition convert_html_file_async (self : converter) (html_file_path : string)
    (png_file_path image_name : option string) (kwargs : options)
  : M W (bool * option string) :=
  present <- see E (PathExists html_file_path) ;;
  if negb present then ret (false, None)
  else
    img_path <-
      match png_file_path with
      | Some (String _ _ as img_path) =>
          let output_dir := dirname img_path in
          there <- see E (PathExists output_dir) ;;
          (if negb there then perform E (OsMakedirs output_dir) else ret tt) ;;;
          ret img_path
      | _ =>
          let image_name :=
            match image_name with
            | None =>
                let base_name := basename html_file_path in
                let name_without_ext := splitext_root E base_name in
                name_without_ext ++ ".png"
            | Some name =>
                if endswith (lower name) ".png" then name else name ++ ".png"
            end in
          ret (path_join E (image_dir self) image_name)
      end ;;
    _convert_html_to_image_async E html_file_path img_path kwargs.

End Code.

End ConverterFiles.

(* ================================================================= *)
(** * The convenience functions and the command line of [html_to_image.py] *)

Module Convenience.

Import Effects Converter.
Local Open Scope string_scope.
Local Open Scope eff_scope.

Section Code.

Context {W : Type} (E : Env W).

Variables dirname basename : string -> string.

(** [output_dir = os.path.dirname(path)], or ["output"] when that is
    empty. *)
Definition output_dir_of (path : string) : string :=
  match dirname path with
  | EmptyString => "output"
  | output_dir => output_dir
  end.

(** [HtmlToImageConverter(output_dir=output_dir)] *)
Definition HtmlToImageConverter (output_dir : string) : M W converter :=
  ConverterFiles.__init__ E output_dir "images" "html_files".

(** The module-level [convert_html_string]. *)
Definition convert_html_string (html_content : string)
    (output_path : option string) (kwargs : options) : M W (option string) :=
  let '(output_dir, image_name) :=
    match output_path with
    | Some (String _ _ as output_path) =>
        (output_dir_of output_path, Some (basename output_path))
    | _ => ("output", None)
    end in
  converter <- HtmlToImageConverter output_dir ;;
  res <- Converter.convert_html_string E converter html_content image_name true
           kwargs ;;
  let '(success, image_path) := res in
  ret (if success : bool then image_path else None).

(** The module-level [convert_html_file]. *)
Definition convert_html_file (html_file_path : string)
    (output_path png_file_path : option string) (kwargs : options)
  : M W (option string) :=
  match png_file_path with
  | Some (String _ _ as png_file_path) =>
      let output_dir := output_dir_of png_file_path in
      converter <- HtmlToImageConverter output_dir ;;
      res <- ConverterFiles.convert_html_file E dirname basename converter
               html_file_path (Some png_file_path) None kwargs ;;
      let '(success, image_path) := res in
      ret (if success : bool then image_path else None)
  | _ =>
      let '(output_dir, image_name) :=
        match output_path with
        | Some (String _ _ as output_path) =>
            (output_dir_of output_path, Some (basename output_path))
        | _ => ("output", None)
        end in
      converter <- HtmlToImageConverter output_dir ;;
      res <- ConverterFiles.convert_html_file E dirname basename converter
               html_file_path None image_name kwargs ;;
      let '(success, image_path) := res in
      ret (if success : bool then image_path else None)
  end.




End Code.

End Convenience.

(* ================================================================= *)
(** * The image services *)

Module Services.

Import Effects Converter.
Local Open Scope string_scope.
Local Open Scope eff_scope.

(** The JSON object both services answer with; a key that is left out is
    [None]. *)
Record reply : Type := {
  success : bool;
  image_path : option string;
  error : option string
}.


Section Code.

Context {W : Type} (E : Env W).

Variables dirname basename : string -> string.

(** [str(e)] *)
Variable str : exn -> string.

(** The module-level [converter] of the services. *)
Variable converter : Converter.converter.



(** [convert_html_file_path] of [html_to_image_service_fastapi.py]. *)
Definition convert_html_file_path (html_file_path : string)
    (png_file_path : option string) (options : Converter.options) : M W reply :=
  try_except
    (present <- see E (PathExists html_file_path) ;;
     if negb present
     then ret {| success := false; image_path := None;
                 error := Some ("HTML文件不存在: " ++ html_file_path) |}
     else
       let png_file_path :=
         match png_file_path with
         | Some (String _ _ as p) => p
         | _ => splitext_root E html_file_path ++ ".png"
         end in
       res <- ConverterFiles.convert_html_file_async E dirname basename converter
                html_file_path (Some png_file_path) None options ;;
       let '(ok, path) := res in
       if ok : bool
       then ret {| success := true; image_path := path; error := None |}
       else ret {| success := false; image_path := None;
                   error := Some "图片生成失败" |})
    any_exception
    (fun e => ret {| success := false; image_path := None;
                     error := Some (str e) |}).

End Code.

End Services.

(* ================================================================= *)
(** * The application: templates, reports and the daily-report route *)

Module Application.

Import Effects.
Local Open Scope string_scope.
Local Open Scope eff_scope.

Definition nl : string := String "010"%char EmptyString.

(** [default_template_content] of [create_default_template]. *)
Definition default_template_content : string :=
  "任务：根据提供的微信群聊天记录（txt格式）生成今日群日报，输出为风格固定、一致的HTML页面，适合截图分享" ++ nl ++
  nl ++
  "要求：" ++ nl ++
  "1. 分析聊天记录，提取今日的主要话题、讨论内容和重要信息" ++ nl ++
  "2. 将内容整理为结构化的日报形式" ++ nl ++
  "3. 生成美观、专业的HTML页面，具有良好的视觉层次和排版" ++ nl ++
  "4. 页面应包含标题、日期、主要内容摘要、详细讨论等部分" ++ nl ++
  "5. 使用适当的字体、颜色和间距，确保可读性" ++ nl ++
  "6. 设计应简洁大方，适合在手机上查看" ++ nl ++
  "7. 输出完整的HTML代码，可直接用于截图分享" ++ nl ++
  nl ++
  "HTML设计风格：" ++ nl ++
  "- 使用现代、简洁的设计" ++ nl ++
  "- 主色调使用蓝色系(#3498db)，搭配白色背景" ++ nl ++
  "- 标题使用22px大小，内容使用16px大小" ++ nl ++
  "- 使用卡片式布局，有适当的阴影和圆角" ++ nl ++
  "- 包含群名称、日期、主要话题、讨论要点等内容" ++ nl ++
  "- 可以添加简单的图标来增强视觉效果" ++ nl ++
  nl ++
  "请直接输出完整的HTML代码，不需要解释。" ++ nl.

(** [DailyReportResponse]; a field that is left out has its default. *)
Record DailyReportResponse : Type := {
  html_content : string;
  html_file_path : option string;
  png_file_path : option string;
  success : bool;
  message : option string
}.

(** How a route ends: with its response, or with [raise HTTPException]. *)
Inductive http (A : Type) : Type :=
| Respond (a : A)
| HTTPException (status_code : Z) (detail : string).

Arguments Respond {A}.
Arguments HTTPException {A}.

(** [if html_content:] on what the extractor returned. *)
Definition found_html (r : option Extractor.str) : option string :=
  match r with
  | Some (_ :: _ as html) => Some (string_of_list_ascii html)
  | _ => None
  end.

Section Code.

Context {W : Type} (E : Env W).

(** [os.path.basename] and [glob.glob]. *)
Variable basename : string -> string.
Variable glob : string -> W -> list string.

(** [str(e)], for the exceptions of the calls and for an [HTTPException]. *)
Variable str : exn -> string.
Variable str_http : Z -> string -> string.

(** [settings.HTML_TO_IMAGE_SERVICE_URL] *)
Variable HTML_TO_IMAGE_SERVICE_URL : string.

(** [ChatService.create_chat(..., stream=False)]: it asks the model and
    returns a text, the text of an error included; it raises nothing. *)
Variable create_chat : list (string * string) -> option string -> W -> string * W.

(** ** [TemplateService]; [templates_dir] is [self.templates_dir] *)

Definition create_default_template (templates_dir : string) : M W bool :=
  let default_template_path := path_join E templates_dir "default_template.txt" in
  try_except
    (perform E (OpenWrite default_template_path default_template_content) ;;;
     ret true)
    any_exception (fun _ => ret false).

Definition get_available_templates (templates_dir : string)
  : M W (list string) :=
  template_files <- get (glob (path_join E templates_dir "*.txt")) ;;
  let templates := map basename template_files in
  match templates with
  | [] =>
      create_default_template templates_dir ;;;
      ret ["default_template.txt"]
  | _ => ret templates
  end.

Definition load_template (templates_dir template_name : string)
  : M W (option string) :=
  let template_path := path_join E templates_dir template_name in
  try_except
    (perform E (OpenRead template_path) ;;;
     content <- get (file_text E template_path) ;;
     ret (Some content))
    any_exception (fun _ => ret None).

(** ** [app/utils/helpers.py] *)

Definition save_html_content (html_content output_dir : string) : M W string :=
  present <- see E (PathExists output_dir) ;;
  (if negb present then perform E (OsMakedirs output_dir) else ret tt) ;;;
  timestamp <- get (strftime E) ;;
  let html_file_path :=
    path_join E output_dir ("report_" ++ timestamp ++ ".html") in
  perform E (OpenWrite html_file_path html_content) ;;;
  ret html_file_path.

(** ** [generate_daily_report] of [app/api/routes/html.py] *)

Definition ask_model (messages : list (string * string)) (model : option string)
  : M W string :=
  fun w => let '(text, w1) := create_chat messages model w in (Val text, w1, []).

(** The [try] block; the [raise HTTPException(status_code=404, ...)] in it
    ends the block with that exception. *)
Definition daily_report_body (templates_dir : string) (chat_content : string)
    (template_name : string) (model : option string) (convert_to_image : bool)
  : M W (http DailyReportResponse) :=
  template <- load_template templates_dir template_name ;;
  match template with
  | None | Some EmptyString =>
      ret (HTTPException 404 ("模板 " ++ template_name ++ " 不存在"))
  | Some template =>
      let messages :=
        [ ("system", template);
          ("user", "请根据以下聊天记录生成群日报：" ++ nl ++ chat_content) ] in
      response_text <- ask_model messages model ;;
      match found_html (Extractor.extract_html_from_response
                          (list_ascii_of_string response_text)) with
      | None =>
          ret (Respond {| html_content := response_text;
                          html_file_path := None;
                          png_file_path := None;
                          success := false;
                          message := Some "未在响应中找到HTML内容" |})
      | Some html =>
          path <- save_html_content html "output" ;;
          if convert_to_image
          then
            res <- Helpers.convert_html_to_image E HTML_TO_IMAGE_SERVICE_URL
                     None (Some path) None ;;
            let '(ok, png) := res in
            if negb ok
            then ret (Respond {| html_content := html;
                                 html_file_path := Some path;
                                 png_file_path := None;
                                 success := true;
                                 message := Some "HTML生成成功，但转换为图片失败" |})
            else ret (Respond {| html_content := html;
                                 html_file_path := Some path;
                                 png_file_path := png;
                                 success := true;
                                 message := Some "日报生成成功" |})
          else ret (Respond {| html_content := html;
                               html_file_path := Some path;
                               png_file_path := None;
                               success := true;
                               message := Some "日报生成成功" |})
      end
  end.

(** The route: [except Exception as e: raise HTTPException(500, str(e))]
    around the block, the [HTTPException] of the block included. *)
Definition generate_daily_report (templates_dir : string) (chat_content : string)
    (template_name : string) (model : option string) (convert_to_image : bool)
  : M W (http DailyReportResponse) :=
  fun w =>
    match daily_report_body templates_dir chat_content template_name model
            convert_to_image w with
    | (Val (Respond a), w1, l1) => (Val (Respond a), w1, l1)
    | (Val (HTTPException status detail), w1, l1) =>
        (Val (HTTPException 500 (str_http status detail)), w1, l1)
    | (Exc e, w1, l1) => (Val (HTTPException 500 (str e)), w1, l1)
    end.

(** ** The end of [main] in [app.py] *)

(** From the extraction of the HTML out of [full_response] to the end of
    the [try] block and its handler, which only print. *)
Definition report_of_response (full_response : string) : M W unit :=
  try_except
    (match found_html (Extractor.extract_html_from_response
                         (list_ascii_of_string full_response)) with
     | Some html =>
         timestamp <- get (strftime E) ;;
         let html_file_path :=
           path_join E "output" ("report_" ++ timestamp ++ ".html") in
         perform E (OpenWrite html_file_path html) ;;;
         let png_file_path :=
           path_join E "output" ("report_" ++ timestamp ++ ".png") in
         Renderer.convert_html_to_png E html_file_path png_file_path ;;;
         ret tt
     | None => ret tt
     end)
    any_exception (fun _ => ret tt).

End Code.

End Application.

(* ================================================================= *)
(** * Path functions, for running the code *)

Module PosixPaths.

Local Open Scope string_scope.

Definition has_slash (p : string) : bool :=
  existsb (Ascii.eqb "/"%char) (list_ascii_of_string p).

(** [os.path.basename] on a POSIX path. *)
Fixpoint basename (p : string) : string :=
  match p with
  | EmptyString => EmptyString
  | String c rest =>
      if has_slash rest then basename rest
      else if Ascii.eqb c "/"%char then rest else p
  end.

(** [os.path.dirname] on a relative POSIX path. *)
Fixpoint dirname (p : string) : string :=
  match p with
  | EmptyString => EmptyString
  | String c rest =>
      if has_slash rest then String c (dirname rest) else EmptyString
  end.

End PosixPaths.

(* ================================================================= *)
(** * The extractor: the shape of what it returns *)

Module ExtractorShape.

Import Extractor.

(** [d] begins with the text [a], up to letter case. *)
Definition starts_with_ci (a d : str) : Prop :=
  exists x rest, d = x ++ rest /\ ci_eq a x.

(** [d] ends with the text [b], up to letter case. *)
Definition ends_with_ci (b d : str) : Prop :=
  exists front y, d = front ++ y /\ ci_eq b y.

Lemma ci_eq_refl (a : str) : ci_eq a a.
Proof.
  induction a as [|c a IH]; constructor; trivial.
  unfold ci_eqb. apply Ascii.eqb_refl.
Qed.

Lemma occurs_at_app_r (a : str) (k : nat) (s t : str) :
  occurs_at a k s -> occurs_at a k (s ++ t).
Proof.
  intros (pre & x & post & -> & Hk & Hx).
  exists pre, x, (post ++ t). repeat split; trivial.
  now rewrite <- !app_assoc.
Qed.

Lemma contains_block_closes (a b s : str) : contains_block a b s -> occurs b s.
Proof.
  intros (pre & x & mid & y & post & -> & _ & Hy).
  exists (length (pre ++ x ++ mid)), (pre ++ x ++ mid), y, post.
  repeat split; trivial. now rewrite <- !app_assoc.
Qed.

(** What a successful search returns: the first block of the text. *)
Lemma search_shape (a b s m : str) :
  search (map Chr a ++ AnyLazy :: map Chr b) s = Some m ->
  exists pre x mid y post,
    first_block a b s pre x mid y post /\ m = x ++ mid ++ y.
Proof.
  intros H.
  destruct (first_block_exists (search_sound _ _ _ H))
    as (pre & x & mid & y & post & Hf).
  exists pre, x, mid, y, post. split; [exact Hf|].
  rewrite (search_first_block Hf) in H. now injection H as <-.
Qed.

(** X1: whatever tier produced it, a document the extractor returns begins
    with the doctype declaration and ends with a closing [</html>] tag, both
    up to the case of the letters. *)
Theorem extract_well_formed (text d : str) :
  extract_html_from_response text = Some d ->
  starts_with_ci (lit DOCTYPE) d /\ ends_with_ci (lit HTML_CLOSE) d.
Proof.
  unfold extract_html_from_response.
  destruct (search html_pattern_document text) as [m|] eqn:E1.
  - intros [= <-]. destruct (search_shape (lit DOCTYPE) (lit HTML_CLOSE) _ E1)
      as (pre & x & mid & y & post & (_ & Hx & Hy & _) & ->).
    split.
    + now exists x, (mid ++ y).
    + exists (x ++ mid), y. split; [now rewrite <- app_assoc | exact Hy].
  - destruct (search html_pattern text) as [m|] eqn:E2.
    + intros [= <-]. destruct (search_shape (lit HTML_OPEN) (lit HTML_CLOSE) _ E2)
        as (pre & x & mid & y & post & (_ & Hx & Hy & _) & ->).
      split.
      * exists (lit DOCTYPE), (lit nl ++ x ++ mid ++ y).
        split; [reflexivity | apply ci_eq_refl].
      * exists (doctype_line ++ x ++ mid), y.
        split; [now rewrite <- !app_assoc | exact Hy].
    + destruct (search body_pattern text) as [m|] eqn:E3; [|discriminate].
      intros [= <-]. split.
      * unfold shell_head.
        eexists (lit DOCTYPE), _. split; [reflexivity | apply ci_eq_refl].
      * exists (shell_head ++ m ++ lit nl), (lit HTML_CLOSE).
        split; [now rewrite <- !app_assoc | apply ci_eq_refl].
Qed.

Lemma extract_well_formed_witness :
  let d := shell_head ++ lit ("<Body class=r>" ++ nl ++ "<h1>Hi</h1></BODY>")
           ++ shell_tail in
  starts_with_ci (lit DOCTYPE) d /\ ends_with_ci (lit HTML_CLOSE) d.
Proof.
  apply (@extract_well_formed body_reply). vm_compute. reflexivity.
Defined.

(** The four cases of the extractor, by the blocks the text holds. *)
Inductive extraction (text : str) : option str -> Prop :=
| Document pre x mid y post :
    first_block (lit DOCTYPE) (lit HTML_CLOSE) text pre x mid y post ->
    extraction text (Some (x ++ mid ++ y))
| Fragment pre x mid y post :
    ~ contains_block (lit DOCTYPE) (lit HTML_CLOSE) text ->
    first_block (lit HTML_OPEN) (lit HTML_CLOSE) text pre x mid y post ->
    extraction text (Some (doctype_line ++ x ++ mid ++ y))
| Body pre x mid y post :
    ~ contains_block (lit DOCTYPE) (lit HTML_CLOSE) text ->
    ~ contains_block (lit HTML_OPEN) (lit HTML_CLOSE) text ->
    first_block (lit BODY_OPEN) (lit BODY_CLOSE) text pre x mid y post ->
    extraction text (Some (shell_head ++ (x ++ mid ++ y) ++ shell_tail))
| Nothing :
    ~ contains_block (lit DOCTYPE) (lit HTML_CLOSE) text ->
    ~ contains_block (lit HTML_OPEN) (lit HTML_CLOSE) text ->
    ~ contains_block (lit BODY_OPEN) (lit BODY_CLOSE) text ->
    extraction text None.

Lemma search_None_no_block (a b s : str) :
  search (map Chr a ++ AnyLazy :: map Chr b) s = None -> ~ contains_block a b s.
Proof.
  intros H Hb. destruct (search_complete Hb) as [m Hm]. congruence.
Qed.

(** X2: the result of the extractor is decided by the blocks of the text
    alone: the first doctype block if there is one; else the first [<html]
    block behind a doctype line; else the first [<body] block inside the
    fixed head and tail; else nothing.  A doctype or an [<html] opening
    that no closing [</html>] follows does not keep a later tier from
    applying. *)
Theorem extract_cases (text : str) :
  extraction text (extract_html_from_response text).
Proof.
  unfold extract_html_from_response.
  destruct (search html_pattern_document text) as [m|] eqn:E1.
  { destruct (search_shape (lit DOCTYPE) (lit HTML_CLOSE) _ E1)
      as (pre & x & mid & y & post & Hf & ->).
    exact (Document Hf). }
  pose proof (@search_None_no_block (lit DOCTYPE) (lit HTML_CLOSE) _ E1) as N1.
  destruct (search html_pattern text) as [m|] eqn:E2.
  { destruct (search_shape (lit HTML_OPEN) (lit HTML_CLOSE) _ E2)
      as (pre & x & mid & y & post & Hf & ->).
    exact (Fragment N1 Hf). }
  pose proof (@search_None_no_block (lit HTML_OPEN) (lit HTML_CLOSE) _ E2) as N2.
  destruct (search body_pattern text) as [m|] eqn:E3.
  { destruct (search_shape (lit BODY_OPEN) (lit BODY_CLOSE) _ E3)
      as (pre & x & mid & y & post & Hf & ->).
    exact (Body N1 N2 Hf). }
  exact (Nothing N1 N2 (@search_None_no_block (lit BODY_OPEN) (lit BODY_CLOSE) _ E3)).
Qed.

Lemma ci_eqb_join (a b d : ascii) :
  ci_eqb a d = true -> ci_eqb b d = true -> ci_eqb a b = true.
Proof.
  unfold ci_eqb. rewrite !Ascii.eqb_eq. congruence.
Qed.

Ltac clash :=
  repeat match goal with
         | H : _ && _ = true |- _ => apply andb_prop in H; destruct H
         end;
  match goal with
  | H1 : ci_eqb ?a ?d = true, H2 : ci_eqb ?b ?d = true |- _ =>
      discriminate (@ci_eqb_join a b d H1 H2)
  end.

(** The closing tag cannot begin inside the line that is put in front of an
    [<html] fragment, nor inside the opening itself. *)
Lemma no_close_in_opening (x rest : str) (k : nat) :
  ci_eq (lit HTML_OPEN) x -> k < 6 ->
  ~ occurs_at (lit HTML_CLOSE) k (lit nl ++ x ++ rest).
Proof.
  intros Hx Hk.
  unfold ci_eq in Hx. cbn in Hx.
  do 5 (inversion Hx as [|? ? ? ? ? Hx']; subst; clear Hx; rename Hx' into Hx).
  inversion Hx; subst; clear Hx.
  cbn [app lit list_ascii_of_string nl].
  do 6 (destruct k as [|k];
        [ rewrite ?occurs_at_S, occurs_at_0; cbn [ci_prefixb lit HTML_CLOSE list_ascii_of_string];
          intros Hc; first [discriminate Hc | clash] |]).
  lia.
Qed.

(** A doctype block of a text is, taken alone, a text whose first block it
    is. *)
Lemma document_stands_alone (text pre x mid y post : str) :
  first_block (lit DOCTYPE) (lit HTML_CLOSE) text pre x mid y post ->
  first_block (lit DOCTYPE) (lit HTML_CLOSE) (x ++ mid ++ y) [] x mid y [].
Proof.
  intros (_ & Hx & Hy & _ & Hmid).
  repeat split; trivial.
  - now rewrite !app_nil_r.
  - simpl. intros k Hk. lia.
  - intros k Hk Hc. apply (Hmid k Hk).
    rewrite app_nil_r in Hc.
    replace (mid ++ y ++ post) with ((mid ++ y) ++ post)
      by now rewrite <- app_assoc.
    now apply occurs_at_app_r.
Qed.

(** An [<html] block behind the doctype line is a text whose first doctype
    block is the whole of it. *)
Lemma fragment_stands_alone (text pre x mid y post : str) :
  first_block (lit HTML_OPEN) (lit HTML_CLOSE) text pre x mid y post ->
  first_block (lit DOCTYPE) (lit HTML_CLOSE) (doctype_line ++ x ++ mid ++ y)
    [] (lit DOCTYPE) (lit nl ++ x ++ mid) y [].
Proof.
  intros (_ & Hx & Hy & _ & Hmid).
  repeat split; trivial.
  - unfold doctype_line. now rewrite !app_nil_r, <- !app_assoc.
  - apply ci_eq_refl.
  - simpl. intros k Hk. lia.
  - intros k Hk Hc. rewrite app_nil_r, <- !app_assoc in Hc.
    destruct (Nat.lt_ge_cases k 6) as [Hlt|Hge].
    + exact (@no_close_in_opening x _ k Hx Hlt Hc).
    + pose proof (ci_eq_length Hx) as Lx.
      rewrite !length_app in Hk. cbn in Hk, Lx.
      apply (Hmid (k - 6)); [lia|].
      replace (mid ++ y ++ post) with ((mid ++ y) ++ post)
        by now rewrite <- app_assoc.
      apply occurs_at_app_r.
      apply occurs_at_skipn in Hc. apply occurs_at_skipn.
      destruct Hc as [Hlen Hp].
      assert (Hs : skipn k (lit nl ++ x ++ mid ++ y) = skipn (k - 6) (mid ++ y)).
      { replace k with ((k - 6) + length (lit nl ++ x)) at 1
          by (rewrite length_app; cbn; lia).
        rewrite (app_assoc (lit nl) x), <- skipn_skipn.
        now rewrite skipn_exact. }
      rewrite Hs in Hp. split; [|exact Hp].
      rewrite !length_app in *. cbn in Hlen. lia.
Qed.

(** X3: extraction is idempotent on what the doctype tier and the [<html]
    tier return: when the text holds a doctype block or an [<html] block,
    extracting from the extracted document gives that document back. *)
Theorem extract_idempotent (text d : str) :
  extract_html_from_response text = Some d ->
  contains_block (lit DOCTYPE) (lit HTML_CLOSE) text \/
  contains_block (lit HTML_OPEN) (lit HTML_CLOSE) text ->
  extract_html_from_response d = Some d.
Proof.
  intros He Hb.
  assert (Hd : exists x mid y, d = x ++ mid ++ y /\
            first_block (lit DOCTYPE) (lit HTML_CLOSE) d [] x mid y []).
  { unfold extract_html_from_response in He.
    destruct (search html_pattern_document text) as [m|] eqn:E1.
    - injection He as <-.
      destruct (search_shape (lit DOCTYPE) (lit HTML_CLOSE) _ E1)
        as (pre & x & mid & y & post & Hf & ->).
      exists x, mid, y. split; [reflexivity|].
      exact (document_stands_alone Hf).
    - destruct (search html_pattern text) as [m|] eqn:E2.
      + injection He as <-.
        destruct (search_shape (lit HTML_OPEN) (lit HTML_CLOSE) _ E2)
          as (pre & x & mid & y & post & Hf & ->).
        exists (lit DOCTYPE), (lit nl ++ x ++ mid), y. split.
        { unfold doctype_line. now rewrite <- !app_assoc. }
        exact (fragment_stands_alone Hf).
      + exfalso. destruct Hb as [Hb|Hb].
        * exact (@search_None_no_block (lit DOCTYPE) (lit HTML_CLOSE) _ E1 Hb).
        * exact (@search_None_no_block (lit HTML_OPEN) (lit HTML_CLOSE) _ E2 Hb). }
  destruct Hd as (x & mid & y & -> & Hf).
  unfold extract_html_from_response.
  change html_pattern_document
    with (map Chr (lit DOCTYPE) ++ AnyLazy :: map Chr (lit HTML_CLOSE)).
  now rewrite (search_first_block Hf).
Qed.

Lemma extract_idempotent_witness :
  let d := lit ("<!DOCTYPE html>" ++ nl ++
                "<HTML lang=en><body>" ++ nl ++ "<p>x</p></body></html>") in
  extract_html_from_response d = Some d.
Proof.
  apply (@extract_idempotent html_reply).
  - vm_compute. reflexivity.
  - right.
    exists (lit "Sure: "), (lit "<HTML"),
      (lit (" lang=en><body>" ++ nl ++ "<p>x</p></body>")), (lit "</html>"),
      (lit " done").
    repeat split; repeat constructor.
Defined.

(** The [<body] tier is different: a fragment that holds a closing
    [</html>] is wrapped into a document that the extractor cuts short. *)
Example body_tier_not_idempotent :
  let text := lit "<body>a</html>b</body>" in
  exists d d',
    extract_html_from_response text = Some d /\
    extract_html_from_response d = Some d' /\ d' <> d.
Proof.
  do 2 eexists. split; [vm_compute; reflexivity|].
  split; [vm_compute; reflexivity | discriminate].
Qed.

End ExtractorShape.

(* ================================================================= *)
(** * The renderer of [app.py]: lookups, guards and files *)

Module RendererEdges.

Import Effects Renderer Logs.
Local Open Scope string_scope.

(** The table of [find_browser_path] as the loops walk it. *)
Definition vendor_paths (table : list (browser * list string))
  : list (browser * string) :=
  flat_map (fun entry => map (pair (fst entry)) (snd entry)) table.

(** The entry is an [os.path.exists] check. *)
Definition probe (e : entry) : bool :=
  match e with Saw (PathExists _) _ => true | _ => false end.

(** The calls the backends of [convert_html_to_png] are made of. *)
Definition backend_call (c : call) : bool :=
  match c with
  | SubprocessRun _ | WebbrowserOpen _ | ImportFrom _ | Playwright Sync _ => true
  | _ => false
  end.

Definition backend_entry (e : entry) : bool :=
  match e with Did c _ => backend_call c | Saw _ _ => true end.

(** The calls that create, write, read or remove a file or a directory. *)
Definition file_call (c : call) : bool :=
  match c with
  | OpenWrite _ _ | OpenRead _ | OsRemove _ | OsMakedirs _ => true
  | _ => false
  end.

Section Facts.

Context {W : Type} (E : Env W).

Definition exists_now (w : W) (bp : browser * string) : bool :=
  ask E (PathExists (snd bp)) w.

Lemma first_existing_spec (paths : list string) (w : W) :
  exists l,
    first_existing E paths w
      = (Val (find (fun p => ask E (PathExists p) w) paths), w, l) /\
    forallb probe l = true.
Proof.
  induction paths as [|p paths IH]; simpl.
  - now exists [].
  - unfold bind, see. destruct (ask E (PathExists p) w) eqn:Hp.
    + eexists. split; reflexivity.
    + destruct IH as (l & -> & Hl). eexists. split; [reflexivity|]. exact Hl.
Qed.

Lemma find_vendor (name : browser) (paths : list string)
    (rest : list (browser * string)) (w : W) :
  find (exists_now w) (map (pair name) paths ++ rest) =
  match find (fun p => ask E (PathExists p) w) paths with
  | Some p => Some (name, p)
  | None => find (exists_now w) rest
  end.
Proof.
  induction paths as [|p paths IH]; simpl; [reflexivity|].
  unfold exists_now at 1. simpl.
  now destruct (ask E (PathExists p) w).
Qed.

Lemma find_browser_in_spec (table : list (browser * list string)) (w : W) :
  exists l,
    find_browser_in E table w
      = (Val (find (exists_now w) (vendor_paths table)), w, l) /\
    forallb probe l = true.
Proof.
  induction table as [|[name paths] table IH]; simpl.
  - now exists [].
  - unfold bind. destruct (first_existing_spec paths w) as (l1 & -> & H1).
    rewrite find_vendor.
    destruct (find _ paths) as [p|].
    + eexists. split; [reflexivity|]. now rewrite app_nil_r.
    + destruct IH as (l2 & -> & H2). eexists. split; [reflexivity|].
      now rewrite forallb_app, H1, H2.
Qed.

(** X4: [find_browser_path] returns the first path of its table that
    exists, Chrome's two paths before Edge's two before Firefox's two, and
    [None] when none of the six exists; it only checks paths and leaves
    the world as it found it. *)
Theorem find_browser_path_first (w : W) :
  let '(r, w', log) := find_browser_path E w in
  r = Val (find (exists_now w) (vendor_paths browser_paths)) /\
  w' = w /\ forallb probe log = true.
Proof.
  unfold find_browser_path.
  destruct (find_browser_in_spec browser_paths w) as (l & -> & Hl).
  now repeat split.
Qed.

(** X5: the Playwright backend of [app.py] never raises; when
    [find_spec] does not find the package it returns [False] at once,
    without importing or calling anything; and it returns [True] only at
    the end of a run whose last steps are the screenshot, the closing of
    the browser, the check that saw the image, and the exit of Playwright,
    all of which returned. *)
Theorem playwright_backend_guarded (html png : string) (w : W) :
  let '(r, w', log) := html_to_png_with_playwright E html png w in
  (exists b, r = Val b) /\
  (ask E (FindSpec "playwright") w = false ->
   r = Val false /\ w' = w /\ log = [Saw (FindSpec "playwright") false]) /\
  (r = Val true ->
   exists front,
     log = (front ++
       [Did (Playwright Sync (Screenshot png true None)) Returned;
        Did (Playwright Sync Close) Returned;
        Saw (PathExists png) true;
        Did (Playwright Sync Stop) Returned])%list).
Proof.
  unfold html_to_png_with_playwright. unfold_monad. cbn [negb].
  repeat step; cbn [app].
  all: split; [eexists; reflexivity|].
  all: split; [first [discriminate 1 | intros _; repeat split]|].
  all: first [discriminate 1 | intros _].
  eexists [_; _; _; _; _; _; _]. reflexivity.
Qed.

Lemma playwright_footprint (html png : string) (w : W) :
  let '(_, _, log) := html_to_png_with_playwright E html png w in
  forallb backend_entry log = true.
Proof.
  unfold html_to_png_with_playwright. unfold_monad. cbn [negb].
  repeat step; reflexivity.
Qed.

Lemma probe_backend (l : list entry) :
  forallb probe l = true -> forallb backend_entry l = true.
Proof.
  rewrite !forallb_forall. intros H e He. specialize (H e He).
  destruct e as [c o|q b]; [discriminate H | reflexivity].
Qed.

Lemma command_backends_footprint (found : option (browser * string))
    (html png : string) (w : W) :
  let '(_, _, log) := command_backends E found html png w in
  forallb backend_entry log = true.
Proof.
  destruct found as [[[] path]|]; unfold command_backends, run_and_check;
    unfold_monad; cbn [negb];
    repeat step; reflexivity.
Qed.

Lemma convert_footprint (html png : string) (w : W) :
  let '(_, _, log) := convert_html_to_png E html png w in
  forallb backend_entry log = true.
Proof.
  unfold convert_html_to_png, try_except, bind.
  pose proof (playwright_footprint html png w) as Hp.
  destruct (html_to_png_with_playwright E html png w) as [[[b|e] w1] lp].
  - destruct b.
    + cbn. now rewrite app_nil_r.
    + destruct (find_browser_in_spec browser_paths w1) as (lf & Hf & Hl).
      change (find_browser_in E browser_paths w1)
        with (find_browser_path E w1) in Hf.
      cbv beta iota. rewrite Hf.
      pose proof (command_backends_footprint
                    (find (exists_now w1) (vendor_paths browser_paths))
                    html png w1) as Hc.
      destruct (command_backends E _ html png w1) as [[[b|e] w3] l];
        cbn; rewrite ?app_nil_r, !forallb_app, Hp, (probe_backend _ Hl), Hc;
        reflexivity.
  - cbn. now rewrite app_nil_r.
Qed.

(** X6: every call [convert_html_to_png] makes is an import, a call of
    the synchronous Playwright API, a subprocess or the opening of the
    default browser; it never writes, reads, creates or removes a file or
    a directory itself. *)
Theorem convert_html_to_png_footprint (html png : string) (w : W) :
  let '(_, _, log) := convert_html_to_png E html png w in
  forall c o, In (Did c o) log -> backend_call c = true /\ file_call c = false.
Proof.
  pose proof (convert_footprint html png w) as H.
  destruct (convert_html_to_png E html png w) as [[r w'] log].
  intros c o Hin. rewrite forallb_forall in H. specialize (H _ Hin).
  simpl in H. split; [exact H|]. now destruct c.
Qed.

Lemma backend_not_file (c : call) :
  backend_call c = true -> file_call c = true -> False.
Proof. destruct c; simpl; congruence. Qed.

Lemma footprint_In (l : list entry) (c : call) (o : outcome) :
  forallb backend_entry l = true -> In (Did c o) l -> backend_call c = true.
Proof.
  intros H Hin. rewrite forallb_forall in H. exact (H _ Hin).
Qed.

Ltac run_convert :=
  match goal with
  | |- context [convert_html_to_png E ?h ?p ?w] =>
      let Hr := fresh "Hr" in
      let Hc := fresh "Hc" in
      pose proof (convert_footprint h p w) as Hc;
      pose proof (RendererFacts.convert_html_to_png_returns E h p w) as Hr;
      destruct (convert_html_to_png E h p w) as [[? ?] ?];
      destruct Hr as (? & -> & _)
  end.

Ltac scan Hin :=
  rewrite ?in_app_iff in Hin; cbn [In] in Hin;
  repeat match type of Hin with
         | _ \/ _ => destruct Hin as [Hin|Hin]
         end;
  try contradiction.

(** X7: the only files [html_to_png] touches itself are its own: with
    [html_content] absent it writes, creates and removes nothing; with
    content it may create [output], write the temporary HTML file and
    remove that same file, nothing else; and a removal is attempted only
    in a run that reports success, so a failed conversion leaves the
    temporary file behind. *)
Theorem html_to_png_files (html_content html_file_path png_file_path : option string)
    (w : W) :
  let temp := path_join E "output" ("temp_" ++ strftime E w ++ ".html") in
  let '(r, _, log) := html_to_png E html_content html_file_path png_file_path w in
  (forall c o, In (Did c o) log -> file_call c = true ->
     exists text, html_content = Some text /\
       (c = OsMakedirs "output" \/ c = OpenWrite temp text \/ c = OsRemove temp)) /\
  (forall t o, In (Did (OsRemove t) o) log -> exists p, r = Val (true, p)).
Proof.
  cbv zeta.
  destruct html_content as [content|], html_file_path as [path|],
    png_file_path as [q|]; unfold html_to_png; unfold_monad; cbn [negb].
  all: repeat step.
  all: try run_convert; cbn beta iota zeta.
  all: match goal with |- context [if ?b then _ else _] => destruct b | _ => idtac end.
  all: repeat step.
  all: split;
    [ intros c o Hin Hfc; scan Hin;
      first [ exfalso; exact (backend_not_file _ (footprint_In _ _ _ Hc Hin) Hfc)
            | discriminate Hin
            | injection Hin as <- <-; first [discriminate Hfc | eauto 6] ]
    | intros t o Hin; scan Hin;
      first [ discriminate (footprint_In _ _ _ Hc Hin)
            | discriminate Hin
            | eexists; reflexivity ] ].
Qed.

End Facts.

End RendererEdges.

(* ================================================================= *)
(** * The converter: names and directories *)

Module ConverterFilesFacts.

Import Effects Converter ConverterFiles Logs.
Local Open Scope string_scope.

(** [os.makedirs], when it returns, has made the directory and removed
    nothing. *)
Definition makedirs_law {W : Type} (E : Env W) : Prop :=
  forall d w w',
    exec E (OsMakedirs d) w = (Returned, w') ->
    ask E (PathExists d) w' = true /\
    (forall p, ask E (PathExists p) w = true -> ask E (PathExists p) w' = true).

(** The only calls of the log are directory creations. *)
Definition only_makedirs (log : list entry) : bool :=
  forallb (fun e => match e with
                    | Did (OsMakedirs _) _ | Saw _ _ => true
                    | _ => false
                    end) log.

(** Where [convert_html_file] puts the image. *)
Definition destination {W : Type} (E : Env W) (basename : string -> string)
    (self : converter) (html_file_path : string)
    (png_file_path image_name : option string) : string :=
  match png_file_path with
  | Some (String _ _ as p) => p
  | _ =>
      path_join E (image_dir self)
        match image_name with
        | None => splitext_root E (basename html_file_path) ++ ".png"
        | Some name => png_suffixed name
        end
  end.

Section Facts.

Context {W : Type} (E : Env W).

Lemma lower_app (a b : string) : lower (a ++ b) = lower a ++ lower b.
Proof. induction a as [|c a IH]; simpl; [reflexivity | now rewrite IH]. Qed.

Lemma length_append (a b : string) :
  String.length (a ++ b) = String.length a + String.length b.
Proof. induction a as [|c a IH]; simpl; [reflexivity | now rewrite IH]. Qed.

Lemma substring_all (s : string) : substring 0 (String.length s) s = s.
Proof. induction s as [|c s IH]; simpl; [reflexivity | now rewrite IH]. Qed.

Lemma substring_tail (a b : string) :
  substring (String.length a) (String.length b) (a ++ b) = b.
Proof. induction a as [|c a IH]; simpl; [apply substring_all | exact IH]. Qed.

Lemma endswith_app (a b : string) : endswith (a ++ b) b = true.
Proof.
  unfold endswith. rewrite length_append.
  replace (String.length a + String.length b - String.length b)
    with (String.length a) by lia.
  rewrite substring_tail, String.eqb_refl, andb_true_r.
  apply Nat.leb_le. lia.
Qed.

(** X8: the name the methods give the image always ends in [.png], in
    any letter case, and a name that already does is left as it is, so
    applying the rule twice changes nothing more. *)
Theorem png_suffixed_ends_in_png (name : string) :
  endswith (lower (png_suffixed name)) ".png" = true /\
  png_suffixed (png_suffixed name) = png_suffixed name.
Proof.
  assert (H : endswith (lower (png_suffixed name)) ".png" = true).
  { unfold png_suffixed. destruct (endswith (lower name) ".png") eqn:Hn.
    - exact Hn.
    - rewrite lower_app. apply endswith_app. }
  split; [exact H|].
  unfold png_suffixed at 1. now rewrite H.
Qed.

Lemma makedirs_missing_spec (dirs : list string) (w : W) :
  let '(r, w', log) := makedirs_missing E dirs w in
  only_makedirs log = true /\
  (forall d o, In (Did (OsMakedirs d) o) log ->
     In d dirs /\ In (Saw (PathExists d) false) log) /\
  (forall e, r = Exc e -> exists d, In (Did (OsMakedirs d) (Raised e)) log) /\
  (r = Val tt -> makedirs_law E ->
     (forall p, ask E (PathExists p) w = true -> ask E (PathExists p) w' = true) /\
     (forall d, In d dirs -> ask E (PathExists d) w' = true)) /\
  ((forall d, In d dirs -> ask E (PathExists d) w = true) ->
   w' = w /\ forall c o, ~ In (Did c o) log).
Proof.
  revert w. induction dirs as [|d dirs IH]; intros w.
  - simpl. repeat split; try discriminate; try tauto.
  - cbn [makedirs_missing]. unfold bind at 1 2. unfold see.
    destruct (ask E (PathExists d) w) eqn:Hd; cbn [negb].
    + (* the directory is there *)
      unfold ret at 1. specialize (IH w).
      destruct (makedirs_missing E dirs w) as [[r w'] log].
      destruct IH as (Honly & Hmk & Hexc & Hlaw & Hnone).
      cbn [app]. split; [exact Honly|].
      split.
      { intros d0 o [Hin|Hin]; [discriminate Hin|].
        destruct (Hmk _ _ Hin). cbn [In]. tauto. }
      split.
      { intros e He. destruct (Hexc e He) as [d0 H0]. exists d0. now right. }
      split.
      { intros Hr L. destruct (Hlaw Hr L) as [Hkeep Hall]. split; [exact Hkeep|].
        intros d0 [<-|Hin]; [now apply Hkeep | now apply Hall]. }
      intros Hall. destruct Hnone as [-> Hno].
      { intros d0 Hin. apply Hall. now right. }
      split; [reflexivity|]. intros c o [Hin|Hin]; [discriminate Hin|].
      exact (Hno _ _ Hin).
    + (* it is missing *)
      unfold perform.
      destruct (exec E (OsMakedirs d) w) as [[|e] w1] eqn:Hx.
      * specialize (IH w1).
        destruct (makedirs_missing E dirs w1) as [[r w'] log].
        destruct IH as (Honly & Hmk & Hexc & Hlaw & Hnone).
        cbn [app]. split; [exact Honly|].
        split.
        { intros d0 o [Hin|[Hin|Hin]]; [discriminate Hin | |].
          - injection Hin as <- <-. cbn [In]. tauto.
          - destruct (Hmk _ _ Hin). cbn [In]. tauto. }
        split.
        { intros e He. destruct (Hexc e He) as [d0 H0]. exists d0. now do 2 right. }
        split.
        { intros Hr L. destruct (Hlaw Hr L) as [Hkeep Hall].
          destruct (L _ _ _ Hx) as [Hmade Hframe].
          split; [intros p Hp; now apply Hkeep, Hframe|].
          intros d0 [<-|Hin]; [now apply Hkeep | now apply Hall]. }
        intros Hall. rewrite (Hall d (or_introl eq_refl)) in Hd. discriminate Hd.
      * cbn [app]. split; [reflexivity|].
        split.
        { intros d0 o [Hin|[Hin|[]]]; [discriminate Hin|].
          injection Hin as <- <-. cbn [In]. tauto. }
        split.
        { intros e0 [= <-]. exists d. cbn [In]. tauto. }
        split; [discriminate 1|].
        intros Hall. rewrite (Hall d (or_introl eq_refl)) in Hd. discriminate Hd.
Qed.

(** X9: [HtmlToImageConverter.__init__] resolves [image_dir] and
    [html_dir] under [output_dir] unless they are absolute, and calls
    nothing but [os.makedirs], only on those three directories and only
    after finding the one at hand missing; the only exceptions that leave
    the constructor are those of [os.makedirs]; when [os.makedirs] does what it says, the
    three directories exist once the constructor returns; and when they
    all exist beforehand nothing is called and nothing changes. *)
Theorem init_directories (output_dir image_dir html_dir : string) (w : W) :
  let image_dir' :=
    if isabs E image_dir then image_dir else path_join E output_dir image_dir in
  let html_dir' :=
    if isabs E html_dir then html_dir else path_join E output_dir html_dir in
  let dirs := [output_dir; image_dir'; html_dir'] in
  let '(r, w', log) := __init__ E output_dir image_dir html_dir w in
  only_makedirs log = true /\
  (forall d o, In (Did (OsMakedirs d) o) log ->
     In d dirs /\ In (Saw (PathExists d) false) log) /\
  (forall e, r = Exc e -> exists d, In (Did (OsMakedirs d) (Raised e)) log) /\
  (forall self, r = Val self ->
     self = {| Converter.output_dir := output_dir;
               Converter.image_dir := image_dir';
               Converter.html_dir := html_dir' |} /\
     (makedirs_law E -> forall d, In d dirs -> ask E (PathExists d) w' = true)) /\
  ((forall d, In d dirs -> ask E (PathExists d) w = true) ->
   w' = w /\ forall c o, ~ In (Did c o) log).
Proof.
  cbv zeta. unfold __init__, bind.
  set (i := if isabs E image_dir then image_dir else path_join E output_dir image_dir).
  set (h := if isabs E html_dir then html_dir else path_join E output_dir html_dir).
  pose proof (makedirs_missing_spec [output_dir; i; h] w) as H.
  destruct (makedirs_missing E [output_dir; i; h] w) as [[[[]|e] w'] log];
    destruct H as (Honly & Hmk & Hexc & Hlaw & Hnone); cbn [ret];
    rewrite ?app_nil_r.
  - split; [exact Honly|]. split; [exact Hmk|]. split; [discriminate 1|].
    split; [|exact Hnone].
    intros self [= <-]. split; [reflexivity|].
    intros L. exact (proj2 (Hlaw eq_refl L)).
  - split; [exact Honly|]. split; [exact Hmk|].
    split; [intros e0 [= <-]; exact (Hexc e eq_refl)|].
    split; [discriminate 1 | exact Hnone].
Qed.

End Facts.

(** ** On concrete worlds *)

Import Worlds.

Lemma files_only_makedirs_law :
  makedirs_law (scripted false files_only no_answer).
Proof.
  intros d w w' [= <-]. split.
  - simpl. now rewrite String.eqb_refl.
  - intros p Hp. simpl in *. now rewrite Hp, orb_true_r.
Qed.

(** A first construction creates the three directories. *)
Example init_directories_fresh :
  let '(r, w', _) :=
    __init__ (scripted false files_only no_answer) "out" "images" "/srv/html" [] in
  r = Val {| Converter.output_dir := "out";
             Converter.image_dir := "out/images";
             Converter.html_dir := "/srv/html" |} /\
  w' = ["/srv/html"; "out/images"; "out"].
Proof. vm_compute. split; reflexivity. Qed.

End ConverterFilesFacts.

(* ================================================================= *)
(** * The converter: converting a file *)

Module FileConversionFacts.

Import Effects Converter ConverterFiles Logs ConverterFilesFacts.
Local Open Scope string_scope.


Section Core.

Context {W : Type} (E : Env W).

Ltac lockstep Hpw Himp :=
  repeat (rewrite ?Hpw, ?Himp; step).

(** The two core methods run in lockstep when the two APIs answer alike. *)
Lemma core_lockstep (html img : string) (o : options) (w : W) :
  ConverterFacts.api_blind E ->
  exists r w' l1 l2,
    _convert_html_to_image E html img o w = (r, w', l1) /\
    _convert_html_to_image_async E html img o w = (r, w', l2) /\
    map ConverterFacts.forget_api l1 = map ConverterFacts.forget_api l2.
Proof.
  intros [Hpw Himp].
  unfold _convert_html_to_image, _convert_html_to_image_async.
  unfold_monad. cbn [negb].
  lockstep Hpw Himp.
  all: do 4 eexists; split; [reflexivity|]; split; reflexivity.
Qed.

End Core.

Section Facts.

Context {W : Type} (E : Env W).
Variables dirname basename : string -> string.

Ltac run_core :=
  match goal with
  | |- context [_convert_html_to_image E ?h ?i ?k ?w0] =>
      let Hc := fresh "Hc" in
      pose proof (ConverterFacts.convert_sync_result E h i k w0) as Hc;
      destruct (_convert_html_to_image E h i k w0) as [[? ?] ?];
      destruct Hc as (? & -> & ? & ?)
  | |- context [_convert_html_to_image_async E ?h ?i ?k ?w0] =>
      let Hc := fresh "Hc" in
      pose proof (ConverterFacts.convert_async_result E h i k w0) as Hc;
      destruct (_convert_html_to_image_async E h i k w0) as [[? ?] ?];
      destruct Hc as (? & -> & ? & ?)
  end.



(** X11: when the two Playwright APIs answer alike, [convert_html_file]
    and [convert_html_file_async] return the same result, leave the same
    world and make the same calls in the same order. *)
Theorem convert_html_file_sync_async (self : converter) (html_file_path : string)
    (png_file_path image_name : option string) (kwargs : options) (w : W) :
  ConverterFacts.api_blind E ->
  let '(r1, w1, l1) :=
    convert_html_file E dirname basename self html_file_path png_file_path
      image_name kwargs w in
  let '(r2, w2, l2) :=
    convert_html_file_async E dirname basename self html_file_path png_file_path
      image_name kwargs w in
  r1 = r2 /\ w1 = w2 /\
  map ConverterFacts.forget_api l1 = map ConverterFacts.forget_api l2.
Proof.
  intros Hblind.
  unfold convert_html_file, convert_html_file_async.
  destruct png_file_path as [[|c p]|]; unfold_monad; cbn [negb];
    repeat step; try (repeat split; fail).
  all: match goal with
       | |- context [_convert_html_to_image E ?h ?i ?k ?w0] =>
           destruct (@core_lockstep _ E h i k w0 Hblind)
             as (r & w' & l1 & l2 & -> & -> & Hl)
       end.
  all: cbn [app map ConverterFacts.forget_api]; rewrite ?Hl; repeat split.
Qed.

End Facts.

(** ** On a concrete world *)

Import Worlds.

Lemma convert_html_file_sync_async_witness :
  let E := scripted true working_playwright no_answer in
  ConverterFacts.api_blind E /\
  (let '(r1, w1, l1) :=
     convert_html_file E PosixPaths.dirname PosixPaths.basename
       ConverterFacts.demo "r.html" (Some "out/r.png") None default_options
       ["r.html"] in
   let '(r2, w2, l2) :=
     convert_html_file_async E PosixPaths.dirname PosixPaths.basename
       ConverterFacts.demo "r.html" (Some "out/r.png") None default_options
       ["r.html"] in
   r1 = r2 /\ w1 = w2 /\
   map ConverterFacts.forget_api l1 = map ConverterFacts.forget_api l2).
Proof.
  split; [exact ConverterFacts.working_playwright_api_blind|].
  exact (@convert_html_file_sync_async _
           (scripted true working_playwright no_answer)
           PosixPaths.dirname PosixPaths.basename
           ConverterFacts.demo "r.html" (Some "out/r.png") None default_options
           ["r.html"] ConverterFacts.working_playwright_api_blind).
Defined.

(** The image is written where [png_file_path] says, after its directory
    was created. *)
Example convert_html_file_to_given_path :
  let '(r, w', _) :=
    convert_html_file (scripted true working_playwright no_answer)
      PosixPaths.dirname PosixPaths.basename
      ConverterFacts.demo "r.html" (Some "out/r.png") None default_options
      ["r.html"] in
  r = Val (true, Some "/work/out/r.png") /\
  w' = ["/work/out/r.png"; "out"; "r.html"].
Proof. vm_compute. split; reflexivity. Qed.

End FileConversionFacts.

(* ================================================================= *)
(** * The converter: the Playwright session of a core method *)

Module Sessions.

Import Effects Converter Logs.
Local Open Scope string_scope.




(** The calls that load the page and wait for it. *)
Definition navigation (c : call) : bool :=
  match c with
  | Playwright _ (Goto _ _ _) | Playwright _ (WaitForLoadState _ _)
  | Playwright _ (WaitForSelector _ _) => true
  | _ => false
  end.

Section Facts.

Context {W : Type} (E : Env W).





(** A core method that reports success has just seen the image. *)
Lemma convert_sync_seen (html img : string) (o : options) (w : W) :
  let '(r, _, log) := _convert_html_to_image E html img o w in
  forall res, r = Val res -> fst res = true ->
    ends_with [Saw (PathExists (abspath E img)) true] log.
Proof.
  unfold _convert_html_to_image. unfold_monad. cbn [negb].
  repeat step; intros ? [= <-] Hs; try discriminate Hs; cbn [app]; close_ends.
Qed.

Ltac step_reliable Hrel :=
  match goal with
  | |- context [exec E ?c ?w] =>
      let o := fresh "o" in
      let w' := fresh "w" in
      let H := fresh "Hexec" in
      destruct (exec E c w) as [o w'] eqn:H;
      first [ let Hf := fresh "Hf" in
              pose proof (Hrel c w eq_refl) as Hf;
              rewrite H in Hf; cbn [fst] in Hf; subst o
            | destruct o ]
  | |- context [ask E ?q ?w] =>
      let H := fresh "Hask" in destruct (ask E q w) eqn:H
  | |- context [is_ImportError ?e] =>
      let H := fresh "Hcatch" in destruct (is_ImportError e) eqn:H
  | |- context [Converter.contains ?a ?b] =>
      let H := fresh "Hin" in destruct (Converter.contains a b) eqn:H
  end; cbn [negb].

(** X13: the page load, the wait for the network and the wait for the
    canvas are best effort in [_convert_html_to_image]: when every other
    call returns, the screenshot is taken whatever those three do, and the
    result is a success with the absolute image path exactly when the
    image exists at the end. *)
Theorem navigation_failures_tolerated (html img : string) (o : options) (w : W) :
  (forall c w0, navigation c = false -> fst (exec E c w0) = Returned) ->
  let '(r, w', log) := _convert_html_to_image E html img o w in
  In (Did (Playwright Sync (Screenshot (abspath E img) (full_page o) (Some false)))
          Returned) log /\
  r = Val (if ask E (PathExists (abspath E img)) w'
           then (true, Some (abspath E img)) else (false, None)).
Proof.
  intros Hrel.
  unfold _convert_html_to_image. unfold_monad. cbn [negb].
  repeat step_reliable Hrel.
  all: try congruence.
  all: split; [cbn [app In]; tauto | reflexivity].
Qed.

End Facts.

(** Every page load times out; everything else works, and the screenshot
    writes its file. *)
Definition slow_pages (c : call) (w : Worlds.world) : outcome * Worlds.world :=
  match c with
  | Playwright _ (Goto _ _ _) => (Raised TimeoutExpired, w)
  | Playwright _ (WaitForLoadState _ _) => (Raised TimeoutExpired, w)
  | Playwright _ (WaitForSelector _ _) => (Raised TimeoutExpired, w)
  | Playwright _ (Screenshot p _ _) => (Returned, p :: w)
  | _ => (Returned, w)
  end.

Lemma slow_pages_reliable :
  forall c w0, navigation c = false -> fst (slow_pages c w0) = Returned.
Proof.
  intros [] w0 H; try reflexivity.
  destruct op; try reflexivity; discriminate H.
Defined.

Lemma navigation_failures_tolerated_witness :
  let E := Worlds.scripted true slow_pages Worlds.no_answer in
  let '(r, w', log) := _convert_html_to_image E "r.html" "r.png" default_options [] in
  In (Did (Playwright Sync (Screenshot "/work/r.png" true (Some false))) Returned)
     log /\
  r = Val (true, Some "/work/r.png").
Proof.
  exact (@navigation_failures_tolerated _
           (Worlds.scripted true slow_pages Worlds.no_answer)
           "r.html" "r.png" default_options [] slow_pages_reliable).
Defined.

End Sessions.

(* ================================================================= *)
(** * The converter: strings, convenience functions, command line *)

Module ConvenienceFacts.

Import Effects Converter ConverterFiles Logs ConverterFilesFacts.
Local Open Scope string_scope.

(** The directory the convenience functions hand to the converter. *)
Definition home (dirname : string -> string) (path : option string) : string :=
  match path with
  | Some (String _ _ as p) => Convenience.output_dir_of dirname p
  | _ => "output"
  end.

(** The calls of the log that remove a file. *)
Definition removals (log : list entry) : list string :=
  flat_map (fun e => match e with Did (OsRemove p) _ => [p] | _ => [] end) log.

Section Methods.

Context {W : Type} (E : Env W).

Lemma core_removes_nothing (html img : string) (o : options) (w : W) :
  let '(_, _, log) := _convert_html_to_image E html img o w in
  removals log = [].
Proof.
  unfold _convert_html_to_image. unfold_monad. cbn [negb].
  repeat step; reflexivity.
Qed.

Lemma removals_app (l m : list entry) :
  removals (l ++ m) = (removals l ++ removals m)%list.
Proof. apply flat_map_app. Qed.

Ltac run_core :=
  match goal with
  | |- context [_convert_html_to_image E ?h ?i ?k ?w0] =>
      let Hc := fresh "Hc" in
      let Hs := fresh "Hs" in
      let Hn := fresh "Hn" in
      pose proof (ConverterFacts.convert_sync_result E h i k w0) as Hc;
      pose proof (Sessions.convert_sync_seen E h i k w0) as Hs;
      pose proof (core_removes_nothing h i k w0) as Hn;
      destruct (_convert_html_to_image E h i k w0) as [[? ?] ?];
      destruct Hc as ([? ?] & -> & [_ ?] & ?);
      specialize (Hs _ eq_refl)
  end.

(** What [HtmlToImageConverter.convert_html_string] returns. *)
Lemma convert_html_string_result (self : converter) (html_content : string)
    (image_name : option string) (delete_html : bool) (kwargs : options) (w : W) :
  let name := match image_name with
              | None => "image_" ++ strftime E w ++ ".png"
              | Some n => png_suffixed n
              end in
  let '(r, _, log) :=
    convert_html_string E self html_content image_name delete_html kwargs w in
  exists success image_path,
    r = Val (success, image_path) /\
    (success = false -> image_path = None) /\
    (success = true ->
     image_path = Some (abspath E (path_join E (image_dir self) name)) /\
     In (Saw (PathExists (abspath E (path_join E (image_dir self) name))) true)
        log).
Proof.
  cbv zeta. unfold convert_html_string, png_suffixed. unfold_monad. cbn [negb].
  step.
  - run_core. cbn [fst snd] in *. cbn beta iota zeta.
    destruct delete_html; repeat step.
    all: do 2 eexists; (split; [reflexivity|]); (split; [assumption|]).
    all: intros Hb; split; [auto|].
    all: destruct (Hs Hb) as [front ->]; cbn [app];
      right; rewrite !in_app_iff; cbn [In]; tauto.
  - do 2 eexists. split; [reflexivity|]. split; [reflexivity | discriminate].
Qed.

(** X14: when the temporary HTML file cannot be written,
    [HtmlToImageConverter.convert_html_string] returns [(False, None)]
    having done nothing else; with [delete_html=False] it removes no
    file; and the only file it ever removes is its temporary HTML file. *)
Theorem convert_html_string_files (self : converter) (html_content : string)
    (image_name : option string) (delete_html : bool) (kwargs : options) (w : W) :
  let temp := temp_html_path_of E self (strftime E w) in
  let '(r, w', log) :=
    convert_html_string E self html_content image_name delete_html kwargs w in
  (forall e w1,
     exec E (OpenWrite temp html_content) w = (Raised e, w1) ->
     r = Val (false, None) /\ w' = w1 /\
     log = [Did (OpenWrite temp html_content) (Raised e)]) /\
  (delete_html = false -> removals log = []) /\
  (forall p, In p (removals log) -> p = temp).
Proof.
  cbv zeta. unfold convert_html_string. unfold_monad. cbn [negb].
  step.
  - run_core. cbn beta iota zeta.
    destruct delete_html; repeat step.
    all: split; [intros ? ? [=]|].
    all: cbn [app removals flat_map]; fold (removals l);
      rewrite ?removals_app, Hn; cbn [app removals flat_map].
    all: split; [first [discriminate 1 | reflexivity]|].
    all: intros p Hp; cbn [In] in Hp;
      repeat match type of Hp with _ \/ _ => destruct Hp as [Hp|Hp] end;
      first [contradiction | now symmetry].
  - split; [intros ? ? [= <- <-]; repeat split|].
    split; [reflexivity|]. intros p [].
Qed.

Lemma lower_png : lower ".png" = ".png".
Proof. reflexivity. Qed.

Lemma generated_name_png (timestamp : string) :
  endswith (lower ("image_" ++ timestamp ++ ".png")) ".png" = true.
Proof.
  change ("image_" ++ timestamp ++ ".png") with (("image_" ++ timestamp) ++ ".png").
  rewrite lower_app, lower_png. apply endswith_app.
Qed.

Lemma png_suffixed_png (name : string) :
  endswith (lower (png_suffixed name)) ".png" = true.
Proof.
  unfold png_suffixed. destruct (endswith (lower name) ".png") eqn:Hn.
  - exact Hn.
  - rewrite lower_app. apply endswith_app.
Qed.

End Methods.

Section Functions.

Context {W : Type} (E : Env W).
Variables dirname basename : string -> string.

Ltac run_core_inv :=
  match goal with
  | |- context [_convert_html_to_image E ?h ?i ?k ?w0] =>
      let Hc := fresh "Hc" in
      pose proof (ConverterFacts.convert_sync_result E h i k w0) as Hc;
      pose proof (Sessions.convert_sync_seen E h i k w0) as Hs;
      destruct (_convert_html_to_image E h i k w0) as [[? ?] ?];
      destruct Hc as ([? ?] & -> & [Hex Hnone] & Hd);
      specialize (Hs _ eq_refl)
  end.

Ltac run_init :=
  unfold Convenience.HtmlToImageConverter, __init__, bind;
  match goal with
  | |- context [makedirs_missing E ?ds ?w0] =>
      destruct (makedirs_missing E ds w0) as [[[[]|?] ?] ?]
  end; cbn [ret].

Ltac run_string :=
  match goal with
  | |- context [convert_html_string E ?s ?h ?n ?d ?k ?w0] =>
      let Hm := fresh "Hm" in
      pose proof (convert_html_string_result E s h n d k w0) as Hm;
      cbv zeta in Hm;
      destruct (convert_html_string E s h n d k w0) as [[? ?] ?];
      destruct Hm as (? & ? & -> & ? & Hok)
  end.

(** X15: the module-level [convert_html_string] does not write the
    image at [output_path]: a path it returns is the absolute form of
    [<dir>/images/<name>], where [<dir>] is the directory part of
    [output_path] (or [output]) and [<name>] ends in [.png], being the
    base name of [output_path] under the suffix rule when [output_path] is
    given; and the image was seen to exist at that path. *)
Theorem convenience_string_destination (html_content : string)
    (output_path : option string) (kwargs : options) (w : W) :
  isabs E "images" = false ->
  let images := path_join E (home dirname output_path) "images" in
  let '(r, _, log) :=
    Convenience.convert_html_string E dirname basename html_content output_path
      kwargs w in
  forall q, r = Val (Some q) ->
    exists name,
      q = abspath E (path_join E images name) /\
      endswith (lower name) ".png" = true /\
      (forall c p, output_path = Some (String c p) ->
         name = png_suffixed (basename (String c p))) /\
      In (Saw (PathExists q) true) log.
Proof.
  intros Himg. cbv zeta. unfold Convenience.convert_html_string, home.
  destruct output_path as [[|c p]|]; cbv beta iota zeta.
  all: run_init; try (intros ? [=]; fail).
  all: run_string; cbn [image_dir] in Hok; rewrite Himg in Hok.
  all: match goal with |- context [if ?b then _ else _] => destruct b end;
    cbn [ret]; intros q [= Hq]; try discriminate Hq;
    destruct (Hok eq_refl) as [Hpath Hseen];
    rewrite Hpath in Hq; injection Hq as <-.
  all: eexists; split; [reflexivity|];
    (split; [first [apply generated_name_png | apply png_suffixed_png]|]);
    (split; [intros ? ? [=]; subst; reflexivity|]);
    rewrite in_app_iff; right; rewrite app_nil_r; exact Hseen.
Qed.

(** What [HtmlToImageConverter.convert_html_file] returns. *)
Lemma convert_html_file_result (self : converter) (html_file_path : string)
    (png_file_path image_name : option string) (kwargs : options) (w : W) :
  let dest := destination E basename self html_file_path png_file_path image_name in
  let '(r, w', log) :=
    convert_html_file E dirname basename self html_file_path png_file_path
      image_name kwargs w in
  forall success image_path,
    r = Val (success, image_path) ->
    (success = false -> image_path = None) /\
    (success = true ->
     image_path = Some (abspath E dest) /\
     ask E (PathExists (abspath E dest)) w' = true /\
     In (Saw (PathExists (abspath E dest)) true) log).
Proof.
  cbv zeta. unfold destination, png_suffixed.
  destruct png_file_path as [[|c p]|], image_name as [name|];
    unfold convert_html_file; unfold_monad; cbn [negb];
    repeat step; try run_core_inv; cbn [fst snd] in *.
  all: intros ? ? [= <- <-]; (split; [auto|]); intros Hb; try discriminate Hb.
  all: destruct (Hex Hb) as (q & Hq & Hthere); pose proof (Hd Hb) as Hdest;
    rewrite Hdest in Hq; injection Hq as <-.
  all: split; [exact Hdest|]; split; [exact Hthere|].
  all: destruct (Hs Hb) as [front ->]; cbn [app In];
    rewrite ?in_app_iff; cbn [In]; tauto.
Qed.

Ltac run_file :=
  match goal with
  | |- context [convert_html_file E dirname basename ?s ?h ?p ?n ?k ?w0] =>
      let Hm := fresh "Hm" in
      pose proof (convert_html_file_result s h p n k w0) as Hm;
      cbv zeta in Hm;
      destruct (convert_html_file E dirname basename s h p n k w0)
        as [[[[? ?]|?] ?] ?];
      [specialize (Hm _ _ eq_refl); destruct Hm as [? Hok] | clear Hm]
  end.

(** X16: a path the module-level [convert_html_file] returns is the
    absolute form of [png_file_path] when that is given and not empty;
    otherwise of [<dir>/images/<name>], with the name taken from
    [output_path] under the suffix rule, or from the HTML file's base
    name; and the image exists there when the function returns. *)
Theorem convenience_file_destination (html_file_path : string)
    (output_path png_file_path : option string) (kwargs : options) (w : W) :
  isabs E "images" = false ->
  let dest :=
    match png_file_path with
    | Some (String _ _ as p) => p
    | _ =>
        path_join E (path_join E (home dirname output_path) "images")
          match output_path with
          | Some (String _ _ as p) => png_suffixed (basename p)
          | _ => splitext_root E (basename html_file_path) ++ ".png"
          end
    end in
  let '(r, w', log) :=
    Convenience.convert_html_file E dirname basename html_file_path output_path
      png_file_path kwargs w in
  forall q, r = Val (Some q) ->
    q = abspath E dest /\ ask E (PathExists q) w' = true.
Proof.
  intros Himg. cbv zeta. unfold Convenience.convert_html_file, home.
  destruct png_file_path as [[|c p]|], output_path as [[|c' p']|];
    cbv beta iota zeta.
  all: run_init; try (intros ? [=]; fail).
  all: run_file; try (intros ? [=]; fail).
  all: unfold destination in Hok; cbn [image_dir] in Hok;
    rewrite ?Himg in Hok.
  all: match goal with |- context [if ?b then _ else _] => destruct b end;
    cbn [ret]; intros q [= Hq]; try discriminate Hq;
    destruct (Hok eq_refl) as (Hpath & Hthere & _);
    rewrite Hpath in Hq; injection Hq as <-.
  all: split; [reflexivity | exact Hthere].
Qed.




End Functions.

(** ** On a concrete world *)

Import Worlds.

Lemma convenience_string_destination_witness :
  let E := scripted true working_playwright no_answer in
  isabs E "images" = false /\
  (let images :=
     path_join E (home PosixPaths.dirname (Some "out/r.png")) "images" in
   let '(r, _, log) :=
     Convenience.convert_html_string E PosixPaths.dirname PosixPaths.basename
       "<html></html>" (Some "out/r.png") default_options [] in
   forall q, r = Val (Some q) ->
     exists name,
       q = abspath E (path_join E images name) /\
       endswith (lower name) ".png" = true /\
       (forall c p, Some "out/r.png" = Some (String c p) ->
          name = png_suffixed (PosixPaths.basename (String c p))) /\
       In (Saw (PathExists q) true) log).
Proof.
  split; [reflexivity|].
  exact (@convenience_string_destination _
           (scripted true working_playwright no_answer)
           PosixPaths.dirname PosixPaths.basename
           "<html></html>" (Some "out/r.png") default_options [] eq_refl).
Defined.

(** Asked for [out/r.png], the function writes [out/images/r.png]. *)
Example convenience_string_under_images :
  let '(r, w', _) :=
    Convenience.convert_html_string (scripted true working_playwright no_answer)
      PosixPaths.dirname PosixPaths.basename
      "<html></html>" (Some "out/r.png") default_options [] in
  r = Val (Some "/work/out/images/r.png") /\
  exists_in "out/r.png" w' = false.
Proof. vm_compute. split; reflexivity. Qed.

Lemma convenience_file_destination_witness :
  let E := scripted true working_playwright no_answer in
  isabs E "images" = false /\
  (let '(r, w', log) :=
     Convenience.convert_html_file E PosixPaths.dirname PosixPaths.basename
       "r.html" (Some "out/shot") None default_options ["r.html"] in
   forall q, r = Val (Some q) ->
     q = abspath E (path_join E (path_join E "out" "images")
                      (png_suffixed (PosixPaths.basename "out/shot"))) /\
     ask E (PathExists q) w' = true).
Proof.
  split; [reflexivity|].
  exact (@convenience_file_destination _
           (scripted true working_playwright no_answer)
           PosixPaths.dirname PosixPaths.basename
           "r.html" (Some "out/shot") None default_options ["r.html"] eq_refl).
Defined.

Example convenience_file_under_images :
  let '(r, _, _) :=
    Convenience.convert_html_file (scripted true working_playwright no_answer)
      PosixPaths.dirname PosixPaths.basename
      "r.html" (Some "out/shot") None default_options ["r.html"] in
  r = Val (Some "/work/out/images/shot.png").
Proof. vm_compute. reflexivity. Qed.

End ConvenienceFacts.

(* ================================================================= *)
(** * The image services and their client: what every run does *)

Module ServicesFacts.

Import Effects Converter ConverterFiles Logs Services.
Local Open Scope string_scope.

(** A reply is well formed in the world [w]: a success names an image that
    exists and carries no error, a failure names no image and says why. *)
Definition well_formed {W : Type} (E : Env W) (r : reply) (w : W) : Prop :=
  (success r = true ->
   error r = None /\
   exists p, image_path r = Some p /\ ask E (PathExists p) w = true) /\
  (success r = false -> image_path r = None /\ error r <> None).

(** The Playwright calls and the imports of a log. *)
Definition rendering (log : list entry) : list entry :=
  filter (fun e => match e with
                   | Did (Playwright _ _) _ | Did (ImportFrom _) _ => true
                   | _ => false
                   end) log.

Section Facts.

Context {W : Type} (E : Env W).
Variable str : exn -> string.
Variable converter : Converter.converter.

(** X18: the client [convert_html_to_image] never raises and a failure
    carries no path; it sends at most one request, to [/convert/path]
    when a file path is given and to [/convert] otherwise, with the fields
    it was given, and reads at most one answer; and it reports success
    only when the request returned, the status was 200 and the answer's
    [success] was truthy, handing on the answer's [image_path], made
    absolute when it is relative and not empty. *)
Theorem client_protocol (service_url : string)
    (html_content html_file_path png_file_path : option string) (w : W) :
  let url := service_url ++ match html_file_path with
                            | Some _ => "/convert/path"
                            | None => "/convert"
                            end in
  let post := RequestsPost url (Helpers.request_data E html_content html_file_path
                                  png_file_path) in
  let '(r, w', log) :=
    Helpers.convert_html_to_image E service_url html_content html_file_path
      png_file_path w in
  (exists ok path, r = Val (ok, path) /\ (ok = false -> path = None)) /\
  (log = [] \/ (exists o, log = [Did post o]) \/
   (exists o, log = [Did post Returned; Did ResponseJson o])) /\
  (forall path, r = Val (true, path) ->
     exists w1 answer,
       exec E post w = (Returned, w1) /\ answer = last_response E w1 /\
       status_code answer = 200%Z /\ json_success answer = true /\
       path = match json_image_path answer with
              | Some p => if negb (String.eqb p "") && negb (isabs E p)
                          then Some (abspath E p) else Some p
              | None => None
              end).
Proof.
  cbv zeta.
  destruct html_content as [c|], html_file_path as [p|];
    unfold Helpers.convert_html_to_image; unfold_monad; cbn [negb].
  4: { repeat split; eauto. intros ? [=]. }
  all: step;
    [ destruct (status_code (last_response E _) =? 200)%Z eqn:Hst;
      [ step; [destruct (json_success (last_response E _)) eqn:Hjs|] |]
    | ].
  all: cbn [app].
  all: split; [do 2 eexists; split; [reflexivity | first [reflexivity | discriminate 1]]|].
  all: split; [eauto 6|].
  all: intros path Hr; first [discriminate Hr | injection Hr as Hp; subst path].
  all: do 2 eexists; split; [reflexivity|]; split; [reflexivity|].
  all: apply Z.eqb_eq in Hst; repeat split; assumption.
Qed.


Ltac run_string :=
  match goal with
  | |- context [convert_html_string E ?s ?h ?n ?d ?k ?w0] =>
      let Hm := fresh "Hm" in
      pose proof (ConvenienceFacts.convert_html_string_result E s h n d k w0) as Hm;
      cbv zeta in Hm;
      destruct (convert_html_string E s h n d k w0) as [[? ?] ?];
      destruct Hm as (ok & ipath & -> & Hnone & Hok)
  end.



End Facts.

Section Paths.

Context {W : Type} (E : Env W).
Variables dirname basename : string -> string.
Variable str : exn -> string.
Variable converter : Converter.converter.

(** What [convert_html_file_async] returns when it is given a destination. *)
Lemma convert_html_file_async_result (html_file_path : string) (c : ascii)
    (p : string) (kwargs : options) (w : W) :
  let '(r, w', log) :=
    convert_html_file_async E dirname basename converter html_file_path
      (Some (String c p)) None kwargs w in
  (forall ok path,
     r = Val (ok, path) ->
     (ok = false -> path = None) /\
     (ok = true ->
      path = Some (abspath E (String c p)) /\
      ask E (PathExists (abspath E (String c p))) w' = true)) /\
  (ask E (PathExists html_file_path) w = false ->
   log = [Saw (PathExists html_file_path) false]).
Proof.
  unfold convert_html_file_async; unfold_monad; cbn [negb].
  repeat step;
    try match goal with
        | |- context [_convert_html_to_image_async E ?h ?i ?k ?w0] =>
            pose proof (ConverterFacts.convert_async_result E h i k w0) as Hc;
            destruct (_convert_html_to_image_async E h i k w0) as [[? ?] ?];
            destruct Hc as ([? ?] & -> & [Hex Hnone] & Hd)
        end; cbn [fst snd] in *.
  all: split; [|first [discriminate 1 | intros _; reflexivity]].
  all: intros ? ? Hr; first [discriminate Hr | injection Hr as <- <-].
  all: split; [auto|]; intros Hb; try discriminate Hb.
  all: destruct (Hex Hb) as (q & Hq & Hthere); pose proof (Hd Hb) as Hdest;
    rewrite Hdest in Hq; injection Hq as <-; split; assumption.
Qed.

Lemma png_name_cons (root : string) :
  exists c p, root ++ ".png" = String c p.
Proof. destruct root; simpl; eauto. Qed.

(** X20: the [/convert/path] endpoint always answers, exceptions
    included; a success names an image that exists when the endpoint
    returns, at the absolute form of [png_file_path] or, without one,
    of the HTML path with its extension replaced by [.png]; a failure
    names no image and says why; and a missing HTML file is answered
    after that one check. *)
Theorem convert_html_file_path_contract (html_file_path : string)
    (png_file_path : option string) (options : Converter.options) (w : W) :
  let dest := match png_file_path with
              | Some (String _ _ as p) => p
              | _ => splitext_root E html_file_path ++ ".png"
              end in
  let '(r, w', log) :=
    Services.convert_html_file_path E dirname basename str converter
      html_file_path png_file_path options w in
  exists rep,
    r = Val rep /\ well_formed E rep w' /\
    (success rep = true -> image_path rep = Some (abspath E dest)) /\
    (ask E (PathExists html_file_path) w = false ->
     rep = {| success := false; image_path := None;
              error := Some ("HTML文件不存在: " ++ html_file_path) |} /\
     w' = w /\ log = [Saw (PathExists html_file_path) false]).
Proof.
  cbv zeta. unfold Services.convert_html_file_path.
  set (dest := match png_file_path with
               | Some (String _ _ as p) => p
               | _ => splitext_root E html_file_path ++ ".png"
               end).
  assert (Hd : exists c p, dest = String c p).
  { subst dest. destruct png_file_path as [[|c p]|]; eauto using png_name_cons. }
  destruct Hd as (c & p & Hd). rewrite Hd. clearbody dest. clear Hd.
  unfold try_except, bind, see.
  destruct (ask E (PathExists html_file_path) w) eqn:Hsrc; cbn [negb ret].
  - pose proof (convert_html_file_async_result html_file_path c p options w) as H.
    destruct (convert_html_file_async E dirname basename converter html_file_path
                (Some (String c p)) None options w) as [[[[ok path]|e] w1] l].
    + destruct H as [H _]. destruct (H _ _ eq_refl) as [Hnone Hok].
      destruct ok; cbn [ret]; eexists; (split; [reflexivity|]).
      * destruct (Hok eq_refl) as [-> Hthere].
        split; [|split; [reflexivity | discriminate 1]].
        split; cbn [success image_path error]; [intros _|discriminate 1].
        split; [reflexivity|]. eexists. split; [reflexivity | exact Hthere].
      * split; [|split; discriminate 1].
        split; cbn [success image_path error]; [discriminate 1 | intros _].
        split; [reflexivity | discriminate].
    + cbn [any_exception ret]. eexists. split; [reflexivity|].
      split; [|split; discriminate 1].
      split; cbn [success image_path error]; [discriminate 1 | intros _].
      split; [reflexivity | discriminate].
  - eexists. split; [reflexivity|].
    split; [|split; [discriminate 1 | intros _; repeat split]].
    split; cbn [success image_path error]; [discriminate 1 | intros _].
    split; [reflexivity | discriminate].
Qed.

End Paths.

End ServicesFacts.

(* ================================================================= *)
(** * The application: what every run does *)

Module ApplicationFacts.

Import Effects Application Logs.
Local Open Scope string_scope.

(** The files a log wrote, with what was written. *)
Definition writes (log : list entry) : list (string * string) :=
  flat_map (fun e => match e with
                     | Did (OpenWrite p text) Returned => [(p, text)]
                     | _ => []
                     end) log.

Section Facts.

Context {W : Type} (E : Env W).
Variable basename : string -> string.
Variable glob : string -> W -> list string.
Variable str : exn -> string.
Variable str_http : Z -> string -> string.
Variable HTML_TO_IMAGE_SERVICE_URL : string.
Variable create_chat : list (string * string) -> option string -> W -> string * W.

(** X21: [get_available_templates] never raises and never returns an
    empty list: it returns the base names of the [*.txt] files it found
    and does nothing else, or, when it found none, the one name
    [default_template.txt] after one attempt to write that file --
    whether or not the attempt succeeded. *)
Theorem templates_never_empty (templates_dir : string) (w : W) :
  let found := map basename (glob (path_join E templates_dir "*.txt") w) in
  let '(r, w', log) := get_available_templates E basename glob templates_dir w in
  exists templates,
    r = Val templates /\ templates <> [] /\
    (found <> [] -> templates = found /\ w' = w /\ log = []) /\
    (found = [] ->
     templates = ["default_template.txt"] /\
     exists o,
       log = [Did (OpenWrite (path_join E templates_dir "default_template.txt")
                     default_template_content) o]).
Proof.
  cbv zeta. unfold get_available_templates, create_default_template.
  unfold_monad. cbn [negb].
  destruct (map basename (glob (path_join E templates_dir "*.txt") w))
    as [|t ts] eqn:Hf.
  - step; eexists; (split; [reflexivity|]); (split; [discriminate|]);
      (split; [intros H; now contradiction H|]); intros _;
      (split; [reflexivity|]); eexists; reflexivity.
  - eexists. split; [reflexivity|]. split; [discriminate|].
    split; [intros _; repeat split | discriminate 1].
Qed.

(** X22: [save_html_content] returns the path
    [<output_dir>/report_<time>.html] after writing exactly that file with
    exactly the given content; it does not catch what [os.makedirs] or
    the write raise, and then has written nothing; and it creates the
    directory only when it is missing. *)
Theorem save_html_content_contract (html_content output_dir : string) (w : W) :
  let '(r, w', log) := save_html_content E html_content output_dir w in
  (forall path, r = Val path ->
     exists w1,
       path = path_join E output_dir ("report_" ++ strftime E w1 ++ ".html") /\
       exec E (OpenWrite path html_content) w1 = (Returned, w') /\
       writes log = [(path, html_content)]) /\
  (forall e, r = Exc e ->
     writes log = [] /\ exists c, ends_with [Did c (Raised e)] log) /\
  (ask E (PathExists output_dir) w = true ->
   forall d o, ~ In (Did (OsMakedirs d) o) log).
Proof.
  unfold save_html_content. unfold_monad. cbn [negb].
  repeat step; cbn [app writes flat_map].
  all: split; [intros ? Hr; first [discriminate Hr | injection Hr as <-; eexists; repeat split; eassumption]|].
  all: split; [intros ? Hr; first [discriminate Hr | injection Hr as <-; split; [reflexivity | eexists; close_ends]]|].
  all: first [discriminate 1 | intros _ d o' Hin; cbn [In] in Hin;
    repeat match type of Hin with _ \/ _ => destruct Hin as [Hin|Hin] end;
    first [contradiction | discriminate Hin]].
Qed.

(** The client answers [(ok, path)], with no path when [ok] is false, and
    writes no file. *)
Lemma client_returns (service_url : string)
    (html_content html_file_path png_file_path : option string) (w : W) :
  let '(r, _, log) :=
    Helpers.convert_html_to_image E service_url html_content html_file_path
      png_file_path w in
  exists ok path, r = Val (ok, path) /\ (ok = false -> path = None) /\
                  writes log = [].
Proof.
  destruct html_content as [c|], html_file_path as [p|];
    unfold Helpers.convert_html_to_image; unfold_monad; cbn [negb].
  4: { do 2 eexists. repeat split. }
  all: step;
    [ destruct (status_code (last_response E _) =? 200)%Z;
      [ step; [destruct (json_success (last_response E _))|] |]
    | ].
  all: do 2 eexists; split; [reflexivity|]; split;
    [first [reflexivity | discriminate 1] | reflexivity].
Qed.

Lemma writes_app (l m : list entry) :
  writes (l ++ m) = (writes l ++ writes m)%list.
Proof. apply flat_map_app. Qed.

(** X23: the daily-report route never lets an exception through other
    than an HTTP 500 -- the 404 it raises for a template that cannot be
    loaded is turned into a 500 too, before the model is asked --; a
    response with [success=False] names no file and nothing was written;
    a response with [success=True] names the HTML file, the one file
    written, holding the returned HTML; and an image path is only
    returned when the conversion was asked for. *)
Theorem generate_daily_report_outcomes (templates_dir chat_content : string)
    (template_name : string) (model : option string) (convert_to_image : bool)
    (w : W) :
  let template_path := path_join E templates_dir template_name in
  let '(r, w', log) :=
    generate_daily_report E str str_http HTML_TO_IMAGE_SERVICE_URL create_chat
      templates_dir chat_content template_name model convert_to_image w in
  (exists out, r = Val out /\
     match out with
     | HTTPException status _ => status = 500%Z
     | Respond rep =>
         (success rep = false ->
          html_file_path rep = None /\ png_file_path rep = None /\
          writes log = []) /\
         (success rep = true ->
          exists path,
            html_file_path rep = Some path /\
            writes log = [(path, html_content rep)]) /\
         (png_file_path rep <> None -> convert_to_image = true)
     end) /\
  (forall e w1,
     exec E (OpenRead template_path) w = (Raised e, w1) ->
     r = Val (HTTPException 500
                (str_http 404 ("模板 " ++ template_name ++ " 不存在"))) /\
     w' = w1 /\ log = [Did (OpenRead template_path) (Raised e)]).
Proof.
  cbv zeta.
  unfold generate_daily_report, daily_report_body, load_template,
    save_html_content, ask_model.
  unfold_monad. cbn [negb].
  step.
  2: { split; [eexists; split; reflexivity|].
       intros ? ? [= <- <-]. repeat split. }
  destruct (file_text E _ _) as [|c0 template].
  { split; [|intros ? ? [=]]. eexists. split; reflexivity. }
  destruct (create_chat _ _ _) as [text w2].
  destruct (found_html _) as [html|].
  2: { split; [|intros ? ? [=]].
       eexists. split; [reflexivity|]. cbn [success html_file_path png_file_path].
       repeat split; try discriminate. intros H; now contradiction H. }
  repeat step; try (split; [eexists; split; reflexivity | intros ? ? [=]]).
  all: destruct convert_to_image.
  all: try match goal with
       | |- context [Helpers.convert_html_to_image E ?u ?c ?p ?q ?w0] =>
           pose proof (client_returns u c p q w0) as Hc;
           destruct (Helpers.convert_html_to_image E u c p q w0) as [[? ?] lc];
           destruct Hc as ([|] & png & -> & Hnone & Hw)
       end; cbn [negb].
  all: (split; [|intros ? ? [=]]).
  all: eexists; (split; [reflexivity|]);
    cbn [success html_file_path png_file_path html_content app writes flat_map];
    try fold (writes lc); rewrite ?writes_app, ?Hw;
    cbn [success html_file_path png_file_path html_content app writes flat_map].
  all: split; [discriminate 1|]; split;
    [ intros _; eexists; split; reflexivity
    | first [ intros _; reflexivity | intros H; now contradiction H ] ].
Qed.

Lemma try_except_head (A : Type) (body : M W A) (catches : exn -> bool)
    (handler : exn -> M W A) (w : W) (x : entry) :
  (exists rest, snd (body w) = x :: rest) ->
  exists rest, snd (try_except body catches handler w) = x :: rest.
Proof.
  unfold try_except. destruct (body w) as [[[a|e] w1] l1]; cbn;
    intros [rest ->]; [eauto|].
  destruct (catches e); [|cbn; eauto].
  destruct (handler e w1) as [[? ?] ?]. cbn. eauto.
Qed.

Lemma bind_head (A B : Type) (m : M W A) (k : A -> M W B) (w : W) (x : entry) :
  (exists rest, snd (m w) = x :: rest) ->
  exists rest, snd (bind m k w) = x :: rest.
Proof.
  unfold bind. destruct (m w) as [[[a|e] w1] l1]; cbn;
    intros [rest ->]; [|eauto].
  destruct (k a w1) as [[? ?] ?]. cbn. eauto.
Qed.

(** The renderer starts with the Playwright probe and touches no file. *)
Lemma convert_html_to_png_shape (html png : string) (w : W) :
  let '(r, _, log) := Renderer.convert_html_to_png E html png w in
  (exists b, r = Val b) /\
  (exists b rest, log = Saw (FindSpec "playwright") b :: rest) /\
  writes log = [] /\
  (forall c o, In (Did c o) log -> RendererEdges.file_call c = false).
Proof.
  pose proof (RendererFacts.convert_html_to_png_returns E html png w) as Hret.
  pose proof (RendererEdges.convert_footprint E html png w) as Hfoot.
  assert (Hhead : exists b rest,
            snd (Renderer.convert_html_to_png E html png w)
            = Saw (FindSpec "playwright") b :: rest).
  { destruct (RendererFacts.playwright_spec E html png w)
      as (b & w1 & b0 & lp & Hp & _).
    exists b0. apply try_except_head, bind_head. rewrite Hp. cbn. eauto. }
  destruct (Renderer.convert_html_to_png E html png w) as [[r w'] log].
  destruct Hret as (b & -> & _). cbn [snd] in Hhead.
  assert (Hfile : forall c o, In (Did c o) log -> RendererEdges.file_call c = false).
  { intros c o Hin. rewrite forallb_forall in Hfoot. specialize (Hfoot _ Hin).
    simpl in Hfoot. destruct c; try reflexivity; discriminate Hfoot. }
  split; [eauto|]. split; [exact Hhead|]. split; [|exact Hfile].
  clear Hhead Hfoot. induction log as [|e log IH]; [reflexivity|].
  assert (IH' : writes log = []).
  { apply IH. intros c' o' H'. apply (Hfile c' o'). now right. }
  destruct e as [c o|q b0]; [|exact IH'].
  pose proof (Hfile c o (or_introl eq_refl)) as Hc.
  destruct c; try exact IH'. discriminate Hc.
Qed.

(** X24: the end of [main] in [app.py] never raises; with no HTML in
    the response it does nothing; otherwise its first call writes the
    extracted HTML to [output/report_<time>.html], nothing follows a write
    that failed, and after a write that returned the renderer is started
    (its Playwright probe comes next) and no further file is written,
    read, created or removed. *)
Theorem report_of_response_effects (full_response : string) (w : W) :
  let html_file_path :=
    path_join E "output" ("report_" ++ strftime E w ++ ".html") in
  let '(r, w', log) := report_of_response E full_response w in
  r = Val tt /\
  match found_html (Extractor.extract_html_from_response
                      (list_ascii_of_string full_response)) with
  | None => w' = w /\ log = []
  | Some html =>
      exists o rest,
        log = Did (OpenWrite html_file_path html) o :: rest /\
        (o <> Returned -> rest = []) /\
        (o = Returned -> exists b rest', rest = Saw (FindSpec "playwright") b :: rest') /\
        (forall c o', In (Did c o') rest -> RendererEdges.file_call c = false)
  end.
Proof.
  cbv zeta. unfold report_of_response.
  destruct (found_html _) as [html|]; unfold_monad; cbn [negb].
  2: { repeat split. }
  step.
  - match goal with
    | |- context [Renderer.convert_html_to_png E ?h ?p ?w0] =>
        pose proof (convert_html_to_png_shape h p w0) as Hc;
        destruct (Renderer.convert_html_to_png E h p w0) as [[? ?] lc];
        destruct Hc as ((b & ->) & (b0 & rest & ->) & _ & Hfile)
    end.
    split; [reflexivity|]. do 2 eexists. split; [reflexivity|].
    split; [intros H; now contradiction H|].
    split; [intros _; cbn [app]; eauto|].
    intros c o' Hin. rewrite app_nil_r in Hin. exact (Hfile _ _ Hin).
  - split; [reflexivity|]. do 2 eexists. split; [reflexivity|].
    split; [reflexivity|]. split; [discriminate 1|]. intros c o' [].
Qed.

End Facts.

End ApplicationFacts.
